(** * Presence tracking and site statistics (main.py, schemas.py)

    A shallow embedding of the two stateful endpoints of the backend,
    [POST /api/heartbeat] ([heartbeat]) and [GET /api/stats] ([get_stats]),
    together with the part of the Python runtime and of the document store
    they rely on, and the properties of the presence/stats subsystem; then
    the blog endpoints ([create_blog], [get_blog], [list_blogs]) and the
    diagnostics ([test_database]).  *)

From Stdlib Require Import ZArith List Ascii String Bool Lia.
Import ListNotations.
Local Open Scope Z_scope.

(** ** Exceptions that can leave a handler *)

(** [InvalidInput] is the rejection of a request body by the [HeartbeatIn]
    model (the framework answers 422 and never calls the handler);
    [OverflowError] is Python's exception for [timedelta] and [datetime]
    arithmetic that leaves the representable range. *)
Inductive error : Type :=
| InvalidInput
| OverflowError.

(** ** Python's [datetime] and [timedelta] *)

Module Datetime.

(** A [datetime] is the number of microseconds since 0001-01-01T00:00:00 UTC,
    the resolution of Python's type. *)
Definition datetime : Type := Z.

(** A [timedelta] is a signed number of microseconds. *)
Definition timedelta : Type := Z.

Definition US_PER_SECOND : Z := 1000000.
Definition US_PER_DAY : Z := 86400 * US_PER_SECOND.

(** [timedelta.max.days]: a timedelta holds at most 999999999 days in
    magnitude. *)
Definition MAX_DELTA_DAYS : Z := 999999999.

(** [date.max.toordinal ()], the day 9999-12-31; day 1 is 0001-01-01. *)
Definition MAXORDINAL : Z := 3652059.

(** First instant after [datetime.max]. *)
Definition DATETIME_END : Z := MAXORDINAL * US_PER_DAY.

(** [timedelta(seconds=s)]: normalises to days (floor division) and raises
    [OverflowError] when the number of days exceeds the bound in magnitude. *)
Definition timedelta_of_seconds (s : Z) : error + timedelta :=
  let us := s * US_PER_SECOND in
  if Z.abs (us / US_PER_DAY) <=? MAX_DELTA_DAYS then inr us
  else inl OverflowError.

(** [t - d] for a datetime [t] and a timedelta [d]: raises [OverflowError]
    when the result is not a date of the years 1 to 9999. *)
Definition datetime_sub (t : datetime) (d : timedelta) : error + datetime :=
  let r := t - d in
  if (0 <=? r) && (r <? DATETIME_END) then inr r else inl OverflowError.

(** A value [datetime.now] can return. *)
Definition valid (t : datetime) : Prop := 0 <= t < DATETIME_END.

End Datetime.
Export Datetime.

(** ** Documents and collections (schemas.py) *)

(** A document of the collection "session".  [visitor_id] and [last_seen] are
    the fields of the schema; [created_at] is written by [heartbeat] on insert
    only, so a document that was not created by it may lack the field. *)
Record Session : Type := mkSession {
  visitor_id : string;
  last_seen : datetime;
  created_at : option datetime
}.

(** A document of the collection "sitestat".  [total_views] is optional in a
    stored document: [get_stats] reads it with a default. *)
Record Sitestat : Type := mkSitestat {
  key : string;
  total_views : option Z;
  stat_created_at : option datetime
}.

(** The database: the two collections, each in insertion order.  Neither
    collection has a unique index, so a collection is a list and may hold
    several documents with the same key.  A document holds the values the
    handler wrote.  The store itself keeps a datetime as a whole number of
    milliseconds: what reads a stored datetime, a comparison of a query or a
    handler that gets the document back, sees it cut to the millisecond
    ([bson_datetime] below), and a datetime given in a query is cut the same
    way. *)
Record Database : Type := mkDatabase {
  session : list Session;
  sitestat : list Sitestat
}.

Definition empty_db : Database := mkDatabase [] [].

(** The resolution of the store: a datetime is kept as whole milliseconds
    (the microseconds beyond are dropped). *)
Definition US_PER_MS : Z := 1000.

Definition bson_datetime (t : datetime) : datetime := t / US_PER_MS * US_PER_MS.

(** ** The store's primitives on one collection *)

Section Collection.
Context {D : Type}.

(** Modelled from the spec: the store client [db] of module [database] is not
    among the sources.  [find_one q] returns the first document that matches
    the query, or nothing. *)
Definition find_one (q : D -> bool) (c : list D) : option D := find q c.

(** Modelled from the spec: [update_one(q, u, upsert=True)] applies the update
    [u] to the first document that matches [q] and to no other; when none
    matches, it inserts the document [ins] (the equality fields of the query,
    then the update, then the set-on-insert fields). *)
Fixpoint update_one (q : D -> bool) (u : D -> D) (ins : D) (c : list D) : list D :=
  match c with
  | [] => [ins]
  | d :: c' => if q d then u d :: c' else d :: update_one q u ins c'
  end.

(** Modelled from the spec: [count_documents q] is the number of documents
    that match the query. *)
Definition count_documents (q : D -> bool) (c : list D) : Z :=
  Z.of_nat (List.length (filter q c)).

End Collection.

(** ** Queries and updates used by the handlers *)

(** The query [{"visitor_id": vid}]. *)
Definition by_visitor_id (vid : string) (d : Session) : bool :=
  String.eqb (visitor_id d) vid.

(** The query [{"key": k}]. *)
Definition by_key (k : string) (d : Sitestat) : bool :=
  String.eqb (key d) k.

(** The query [{"last_seen": {"$gte": since}}]: the bound and the stored
    [last_seen] are compared as the store keeps them, in milliseconds. *)
Definition last_seen_gte (since : datetime) (d : Session) : bool :=
  bson_datetime since <=? bson_datetime (last_seen d).

(** [{"$set": {"visitor_id": vid, "last_seen": now}}] on an existing
    document; the set-on-insert part does not apply. *)
Definition set_heartbeat (vid : string) (now : datetime) (d : Session) : Session :=
  mkSession vid now (created_at d).

(** The document an upsert of the session update inserts: the query's
    [visitor_id], the set fields and the set-on-insert field [created_at]. *)
Definition new_session (vid : string) (now : datetime) : Session :=
  mkSession vid now (Some now).

(** [{"$inc": {"total_views": n}}] on an existing document: a missing field
    is created with the increment as its value. *)
Definition inc_total_views (n : Z) (d : Sitestat) : Sitestat :=
  mkSitestat (key d)
    (Some (match total_views d with Some v => v + n | None => n end))
    (stat_created_at d).

(** The document an upsert of the counter update inserts. *)
Definition new_sitestat (k : string) (n : Z) (now : datetime) : Sitestat :=
  mkSitestat k (Some n) (Some now).

(** ** Handlers: computations over the database that may raise *)

(** A handler reads and writes the database and ends with a value or with an
    exception; what was written before an exception stays written. *)
Definition M (A : Type) : Type := Database -> (error + A) * Database.

Definition ret {A} (a : A) : M A := fun db => (inr a, db).

Definition raise {A} (e : error) : M A := fun db => (inl e, db).

Definition bind {A B} (m : M A) (k : A -> M B) : M B :=
  fun db =>
    match m db with
    | (inr a, db') => k a db'
    | (inl e, db') => (inl e, db')
    end.

Definition lift {A} (r : error + A) : M A :=
  match r with inr a => ret a | inl e => raise e end.

Notation "x <- m ;; k" := (bind m (fun x => k))
  (at level 61, m at next level, right associativity).
Notation "m ;;; k" := (bind m (fun _ => k))
  (at level 61, right associativity).

(** Final database and outcome of a handler. *)
Definition exec {A} (m : M A) (db : Database) : Database := snd (m db).
Definition outcome {A} (m : M A) (db : Database) : error + A := fst (m db).

(** The store operations, per collection. *)
Definition session_find_one (q : Session -> bool) : M (option Session) :=
  fun db => (inr (find_one q (session db)), db).

Definition session_update_one (q : Session -> bool) (u : Session -> Session)
    (ins : Session) : M unit :=
  fun db => (inr tt, mkDatabase (update_one q u ins (session db)) (sitestat db)).

Definition session_count_documents (q : Session -> bool) : M Z :=
  fun db => (inr (count_documents q (session db)), db).

Definition sitestat_find_one (q : Sitestat -> bool) : M (option Sitestat) :=
  fun db => (inr (find_one q (sitestat db)), db).

Definition sitestat_update_one (q : Sitestat -> bool) (u : Sitestat -> Sitestat)
    (ins : Sitestat) : M unit :=
  fun db => (inr tt, mkDatabase (session db) (update_one q u ins (sitestat db))).

(** ** POST /api/heartbeat *)

(** The value found under "visitor_id" in the JSON body of a request. *)
Inductive json : Type :=
| JMissing
| JNull
| JInt (n : Z)
| JStr (s : string).

(** [class HeartbeatIn(BaseModel): visitor_id: str]. *)
Record HeartbeatIn : Type := mkHeartbeatIn { hb_visitor_id : string }.

(** Validation of the body against [HeartbeatIn]: the field is required and
    must be a string; the model puts no constraint on the string itself. *)
Definition HeartbeatIn_validate (body : json) : error + HeartbeatIn :=
  match body with
  | JStr s => inr (mkHeartbeatIn s)
  | _ => inl InvalidInput
  end.

(** The response [{"ok": True}]. *)
Record HeartbeatOut : Type := mkHeartbeatOut { ok : bool }.

(** [heartbeat(payload)], with the value of [datetime.now(timezone.utc)] it
    reads on entry as the parameter [now]. *)
Definition heartbeat (now : datetime) (payload : HeartbeatIn) : M HeartbeatOut :=
  let vid := hb_visitor_id payload in
  prev <- session_find_one (by_visitor_id vid) ;;
  session_update_one (by_visitor_id vid) (set_heartbeat vid now) (new_session vid now) ;;;
  match prev with
  | None =>
      sitestat_update_one (by_key "global"%string) (inc_total_views 1)
        (new_sitestat "global"%string 1 now)
  | Some _ => ret tt
  end ;;;
  ret (mkHeartbeatOut true).

(** The endpoint: the framework validates the body, then calls the handler. *)
Definition post_heartbeat (now : datetime) (body : json) : M HeartbeatOut :=
  payload <- lift (HeartbeatIn_validate body) ;;
  heartbeat now payload.

(** ** GET /api/stats *)

(** The response [{"active": active, "total": total}]. *)
Record Stats : Type := mkStats { active : Z; total : Z }.

(** [stat.get("total_views", 0)] on [find_one(...) or {"total_views": 0}]. *)
Definition stat_total_views (stat : option Sitestat) : Z :=
  match stat with
  | Some d => match total_views d with Some v => v | None => 0 end
  | None => 0
  end.

(** [get_stats(window_seconds=120)]; [None] is the omitted argument. *)
Definition get_stats (now : datetime) (window_seconds : option Z) : M Stats :=
  let window_seconds := match window_seconds with Some w => w | None => 120 end in
  delta <- lift (timedelta_of_seconds window_seconds) ;;
  since <- lift (datetime_sub now delta) ;;
  active <- session_count_documents (last_seen_gte since) ;;
  stat <- sitestat_find_one (by_key "global"%string) ;;
  let total := stat_total_views stat in
  ret (mkStats active total).

(** The cutoff of [get_stats] is representable. *)
Definition cutoff_ok (now : datetime) (w : Z) : Prop :=
  0 <= now - w * US_PER_SECOND < DATETIME_END.

(** ** Observations on a database *)

(** [GlobalCounter.total_views] as the code reads it: the field of the first
    document with key "global", 0 when there is none. *)
Definition counter (db : Database) : Z :=
  stat_total_views (find_one (by_key "global"%string) (sitestat db)).

(** Number of Session records for a visitor. *)
Definition sessions_of (vid : string) (db : Database) : Z :=
  count_documents (by_visitor_id vid) (session db).

(** No Session record for the visitor. *)
Definition unseen (vid : string) (db : Database) : Prop :=
  forall d, In d (session db) -> visitor_id d <> vid.

(** The value a handler answers with, when it raises nothing. *)
Definition answer {A} (m : M A) (db : Database) : option A :=
  match outcome m db with inr a => Some a | inl _ => None end.

(** The [active] field of the answer of [get_stats]. *)
Definition active_at (now : datetime) (w : Z) (db : Database) : option Z :=
  option_map active (answer (get_stats now (Some w)) db).

(** ** Sequential executions *)

(** A request with the time the clock shows when it is served. *)
Inductive request : Type :=
| Heartbeat (now : datetime) (body : json)
| GetStats (now : datetime) (window_seconds : option Z).

(** Serving one request: the database it leaves. *)
Definition serve (db : Database) (r : request) : Database :=
  match r with
  | Heartbeat now body => exec (post_heartbeat now body) db
  | GetStats now w => exec (get_stats now w) db
  end.

(** Serving requests one after the other. *)
Definition serve_all (rs : list request) (db : Database) : Database :=
  fold_left serve rs db.

(** Heartbeats of one visitor at the given times, one after the other. *)
Definition heartbeats (vid : string) (times : list datetime) (db : Database) : Database :=
  serve_all (map (fun t => Heartbeat t (JStr vid)) times) db.

(** The clock never goes back along a list of requests. *)
Definition request_time (r : request) : datetime :=
  match r with Heartbeat now _ => now | GetStats now _ => now end.

Fixpoint clock_from (t : datetime) (rs : list request) : Prop :=
  match rs with
  | [] => True
  | r :: rs' => t <= request_time r /\ clock_from (request_time r) rs'
  end.

(** The invariant of the counter: one counter document at most, keyed
    "global" and holding the number of Session records; all Session records
    of distinct visitors; the counter as read equal to their number. *)
Record counter_inv (db : Database) : Prop := mkCounterInv {
  inv_single : (List.length (sitestat db) <= 1)%nat;
  inv_global : forall d, In d (sitestat db) ->
    key d = "global"%string
    /\ total_views d = Some (Z.of_nat (List.length (session db)));
  inv_nodup : NoDup (map visitor_id (session db));
  inv_count : counter db = Z.of_nat (List.length (session db))
}.

(** The invariant of the timestamps: every Session record has a [created_at],
    not after its [last_seen]; [upto t] also bounds [last_seen] by [t]. *)
Definition created_before_seen (d : Session) : Prop :=
  exists c, created_at d = Some c /\ c <= last_seen d.

Definition stamps_inv (db : Database) : Prop :=
  forall d, In d (session db) -> created_before_seen d.

Definition seen_upto (t : datetime) (db : Database) : Prop :=
  forall d, In d (session db) -> last_seen d <= t.

(** ** Interleaved executions of [heartbeat] *)

(** A heartbeat request in progress: the three store operations of the
    handler are separate calls, and another request may run between them.
    A task records the next operation and the handler's local variables. *)
Inductive task : Type :=
| AtFind (now : datetime) (payload : HeartbeatIn)
| AtUpsert (now : datetime) (payload : HeartbeatIn) (prev : option Session)
| AtCount (now : datetime) (payload : HeartbeatIn) (prev : option Session)
| Finished (r : HeartbeatOut).

(** The next store operation of a task. *)
Definition task_step (t : task) : M task :=
  match t with
  | AtFind now payload =>
      prev <- session_find_one (by_visitor_id (hb_visitor_id payload)) ;;
      ret (AtUpsert now payload prev)
  | AtUpsert now payload prev =>
      let vid := hb_visitor_id payload in
      session_update_one (by_visitor_id vid) (set_heartbeat vid now) (new_session vid now) ;;;
      ret (AtCount now payload prev)
  | AtCount now payload prev =>
      match prev with
      | None =>
          sitestat_update_one (by_key "global"%string) (inc_total_views 1)
            (new_sitestat "global"%string 1 now)
      | Some _ => ret tt
      end ;;;
      ret (Finished (mkHeartbeatOut true))
  | Finished r => ret (Finished r)
  end.

Definition running (t : task) : bool :=
  match t with Finished _ => false | _ => true end.

(** One step of the system: some running task performs its next operation. *)
Inductive step : list task * Database -> list task * Database -> Prop :=
| step_task pre t post db t' db' :
    running t = true ->
    task_step t db = (inr t', db') ->
    step (pre ++ t :: post, db) (pre ++ t' :: post, db').

Inductive steps : list task * Database -> list task * Database -> Prop :=
| steps_refl c : steps c c
| steps_cons c1 c2 c3 : step c1 c2 -> steps c2 c3 -> steps c1 c3.

(** ** The request log *)

(** The visitor a request records: the id of a heartbeat that passes
    validation. *)
Definition heartbeat_visitor (r : request) : option string :=
  match r with
  | Heartbeat _ (JStr vid) => Some vid
  | _ => None
  end.

(** The visitors of a list of requests in the order of their first
    heartbeat, after the visitors [seen] already known. *)
Fixpoint first_seen (seen : list string) (rs : list request) : list string :=
  match rs with
  | [] => seen
  | r :: rs' =>
      match heartbeat_visitor r with
      | Some vid =>
          if existsb (fun s => String.eqb s vid) seen then first_seen seen rs'
          else first_seen (seen ++ [vid]) rs'
      | None => first_seen seen rs'
      end
  end.

(** The time of the last heartbeat of a visitor in a list of requests;
    [seen] when it has none. *)
Fixpoint last_heartbeat (vid : string) (seen : option datetime) (rs : list request)
    : option datetime :=
  match rs with
  | [] => seen
  | r :: rs' =>
      match heartbeat_visitor r with
      | Some v =>
          if String.eqb v vid then last_heartbeat vid (Some (request_time r)) rs'
          else last_heartbeat vid seen rs'
      | None => last_heartbeat vid seen rs'
      end
  end.

(** ** Configurations of interleaved heartbeats *)

(** The visitor has a Session record. *)
Definition has_session (vid : string) (db : Database) : Prop :=
  find_one (by_visitor_id vid) (session db) <> None.

(** A task that found no record and has still to increment the counter. *)
Definition owes_increment (t : task) : bool :=
  match t with
  | AtCount _ _ None => true
  | _ => false
  end.

Definition pending (ts : list task) : Z :=
  Z.of_nat (List.length (filter owes_increment ts)).

(** What a task knows is true of the database: a record it found, and the
    record its upsert wrote or updated, are there. *)
Definition task_ok (db : Database) (t : task) : Prop :=
  match t with
  | AtFind _ _ => True
  | AtUpsert _ payload (Some _) => has_session (hb_visitor_id payload) db
  | AtUpsert _ _ None => True
  | AtCount _ payload _ => has_session (hb_visitor_id payload) db
  | Finished _ => True
  end.

(** The invariant of a configuration: the tasks' knowledge holds, the
    Session records are of distinct visitors, and the counter with the
    increments still owed covers the Session records. *)
Record config_inv (c : list task * Database) : Prop := mkConfigInv {
  cfg_tasks : Forall (task_ok (snd c)) (fst c);
  cfg_nodup : NoDup (map visitor_id (session (snd c)));
  cfg_cover : Z.of_nat (List.length (session (snd c))) <= counter (snd c) + pending (fst c)
}.

(** A store for the examples: the visitor "xyz" recorded at
    2025-11-29T07:43:20; two heartbeats of the new visitor "abc", in progress
    at once at 07:59:50 and 07:59:51; and the store their race ends with, the
    counter raised twice for the one new record. *)
Definition sample_store : Database :=
  mkDatabase [mkSession "xyz" 63899999000000000 (Some 63899999000000000)]
             [mkSitestat "global" (Some 1) (Some 63899999000000000)].

Definition sample_race : list task :=
  [AtFind 63899999990000000 (mkHeartbeatIn "abc");
   AtFind 63899999991000000 (mkHeartbeatIn "abc")].

Definition sample_race_end : Database :=
  mkDatabase [mkSession "xyz" 63899999000000000 (Some 63899999000000000);
              mkSession "abc" 63899999991000000 (Some 63899999990000000)]
             [mkSitestat "global" (Some 3) (Some 63899999000000000)].

(** The number of handlers that have finished. *)
Definition completed (ts : list task) : Z :=
  Z.of_nat (List.length (filter (fun t => negb (running t)) ts)).

(** ** Blog posts (schemas.py [Blogpost]; main.py, the blog endpoints) *)

(** Exceptions of the blog endpoints: the handler's own [HTTPException], the
    rejection of a [BlogOut] whose required field is missing, the store's
    refusal of a second document with the same [_id], and Python's error for
    [.get] on [None]. *)
Inductive exn : Type :=
| HTTPException (status_code : Z) (detail : string)
| ValidationError
| DuplicateKeyError
| AttributeError.

(** The identifiers of the store's driver, which is not part of the
    sources: the type [ObjectId], its equality, [ObjectId(s)] on a string
    ([None] when it raises) and [str(oid)]. *)
Class ObjectIdCodec : Type := {
  ObjectId : Type;
  oid_eqb : ObjectId -> ObjectId -> bool;
  oid_parse : string -> option ObjectId;
  oid_str : ObjectId -> string
}.

(** What the handlers may expect of the identifiers: [oid_eqb] decides
    equality, and the string of an identifier reads back as that identifier. *)
Class ObjectIdLaws (codec : ObjectIdCodec) : Prop := {
  oid_eqb_eq : forall a b : ObjectId, oid_eqb a b = true <-> a = b;
  oid_parse_str : forall o : ObjectId, oid_parse (oid_str o) = Some o
}.

(** [class Blogpost(BaseModel)], also the request model [BlogCreate]. *)
Record Blogpost : Type := mkBlogpost {
  title : string;
  content : string;
  author : string;
  tags : list string;
  cover_image : option string;
  published_at : option datetime
}.

(** [class BlogOut(BaseModel)]. *)
Record BlogOut : Type := mkBlogOut {
  out_id : string;
  out_title : string;
  out_content : string;
  out_author : string;
  out_tags : list string;
  out_cover_image : option string;
  out_published_at : option datetime
}.

Section BlogEndpoints.
Context {codec : ObjectIdCodec}.

(** A document of the collection "blogpost".  The store gives every
    document an [_id]; any other field may be absent ([None]). *)
Record BlogDoc : Type := mkBlogDoc {
  _id : ObjectId;
  doc_title : option string;
  doc_content : option string;
  doc_author : option string;
  doc_tags : option (list string);
  doc_cover_image : option string;
  doc_published_at : option datetime;
  doc_created_at : option datetime;
  doc_updated_at : option datetime
}.

(** The query [{"_id": oid}]. *)
Definition by_id (oid : ObjectId) (d : BlogDoc) : bool := oid_eqb (_id d) oid.

(** Modelled from the spec: the store client [db] of module [database] is not
    among the sources.  [insert_one d] adds the document at the end of the
    collection; [_id] is unique in a collection, and a document whose [_id]
    is taken is refused. *)
Definition insert_one (d : BlogDoc) (c : list BlogDoc) : exn + list BlogDoc :=
  if existsb (by_id (_id d)) c then inl DuplicateKeyError else inr (c ++ [d]).

(** [serialize_blog(doc)]: [title], [content] and [author] are required
    fields of [BlogOut], so a document without one of them is rejected;
    [tags] defaults to the empty list; [published_at] is read as the store
    keeps it, cut to the millisecond. *)
Definition serialize_blog (doc : BlogDoc) : exn + BlogOut :=
  match doc_title doc, doc_content doc, doc_author doc with
  | Some t, Some c, Some a =>
      inr (mkBlogOut (oid_str (_id doc)) t c a
             (match doc_tags doc with Some l => l | None => [] end)
             (doc_cover_image doc)
             (option_map bson_datetime (doc_published_at doc)))
  | _, _, _ => inl ValidationError
  end.

(** [create_blog(post)].  [oid] is the identifier the driver gives the new
    document; [now1], [now2] and [now3] are the values of the three calls of
    [datetime.now] (for [published_at], [created_at] and [updated_at]). *)
Definition create_blog (oid : ObjectId) (now1 now2 now3 : datetime) (post : Blogpost)
    (c : list BlogDoc) : (exn + BlogOut) * list BlogDoc :=
  let published := match published_at post with Some t => t | None => now1 end in
  let data :=
    mkBlogDoc oid (Some (title post)) (Some (content post)) (Some (author post))
      (Some (tags post)) (cover_image post) (Some published) (Some now2) (Some now3) in
  match insert_one data c with
  | inl e => (inl e, c)
  | inr c' =>
      match find_one (by_id oid) c' with
      | Some doc => (serialize_blog doc, c')
      | None => (inl AttributeError, c')
      end
  end.

(** [get_blog(post_id)]. *)
Definition get_blog (post_id : string) (c : list BlogDoc) : (exn + BlogOut) * list BlogDoc :=
  match oid_parse post_id with
  | None => (inl (HTTPException 400 "Invalid blog id"), c)
  | Some oid =>
      match find_one (by_id oid) c with
      | None => (inl (HTTPException 404 "Not found"), c)
      | Some doc => (serialize_blog doc, c)
      end
  end.

(** The collections that [create_blog] alone builds from the empty one. *)
Inductive created : list BlogDoc -> Prop :=
| created_empty : created []
| created_post c oid now1 now2 now3 post :
    created c -> created (snd (create_blog oid now1 now2 now3 post c)).

End BlogEndpoints.

(** The cursor [find({}).sort("published_at", -1).limit(n)] of the store's
    driver, which is not part of the sources: the documents it yields, in
    its order. *)
Class BlogCursor (codec : ObjectIdCodec) : Type := {
  find_sort_limit : Z -> list BlogDoc -> list BlogDoc
}.

(** What the handler may expect of the cursor: it yields documents of the
    collection only. *)
Class BlogCursorLaws {codec : ObjectIdCodec} (cursor : BlogCursor codec) : Prop := {
  cursor_in : forall n c d, In d (find_sort_limit n c) -> In d c
}.

Section BlogListing.
Context {codec : ObjectIdCodec} {cursor : BlogCursor codec}.

(** [[serialize_blog(d) for d in docs]]: the documents are serialised in
    order, and the first that is rejected ends the comprehension. *)
Fixpoint serialize_all (docs : list BlogDoc) : exn + list BlogOut :=
  match docs with
  | [] => inr []
  | d :: docs' =>
      match serialize_blog d with
      | inl e => inl e
      | inr out =>
          match serialize_all docs' with
          | inl e => inl e
          | inr outs => inr (out :: outs)
          end
      end
  end.

(** [list_blogs(limit=20)]; [None] is the omitted argument. *)
Definition list_blogs (limit : option Z) (c : list BlogDoc)
    : (exn + list BlogOut) * list BlogDoc :=
  let limit := match limit with Some n => n | None => 20 end in
  let docs := find_sort_limit limit c in
  (serialize_all docs, c).

End BlogListing.

(** A small set of identifiers for the examples: the numbers, written in
    unary with the letter x. *)
Fixpoint unary (n : nat) : string :=
  match n with
  | O => EmptyString
  | S k => String "x"%char (unary k)
  end.

Fixpoint read_unary (s : string) : option nat :=
  match s with
  | EmptyString => Some O
  | String a s' => if Ascii.eqb a "x"%char then option_map S (read_unary s') else None
  end.

#[local] Instance unary_codec : ObjectIdCodec :=
  {| ObjectId := nat; oid_eqb := Nat.eqb; oid_parse := read_unary; oid_str := unary |}.

(** A cursor for the examples: the first [n] documents in insertion order. *)
#[local] Instance insertion_cursor : BlogCursor unary_codec :=
  {| find_sort_limit := fun n c => firstn (Z.to_nat n) c |}.

(** ** Diagnostics (main.py, [test_database]) *)

(** Python strings are sequences of code points; here a string is the
    sequence of bytes of its UTF-8 encoding.  A byte of the form 10xxxxxx
    continues the code point of the byte before it. *)
Definition is_continuation (a : ascii) : bool :=
  match a with
  | Ascii _ _ _ _ _ _ b6 b7 => b7 && negb b6
  end.

(** [len(s)]: the number of code points. *)
Fixpoint code_points (s : string) : nat :=
  match s with
  | EmptyString => O
  | String a s' => if is_continuation a then code_points s' else S (code_points s')
  end.

(** [s[:n]]: the first [n] code points. *)
Fixpoint str_prefix (n : nat) (s : string) : string :=
  match s with
  | EmptyString => EmptyString
  | String a s' =>
      if is_continuation a then String a (str_prefix n s')
      else match n with
           | O => EmptyString
           | S k => String a (str_prefix k s')
           end
  end.

(** What [test_database] uses of the module-level [db] when it is not
    [None]: its attribute [name], if it has one, and the outcome of
    [list_collection_names()], the names or the message [str(e)] of the
    exception it raised. *)
Record DbClient : Type := mkDbClient {
  db_name : option string;
  list_collection_names : string + list string
}.

(** The dictionary [response]. *)
Record DiagResponse : Type := mkDiagResponse {
  backend : string;
  database : string;
  database_url : option string;
  database_name : option string;
  connection_status : string;
  collections : list string
}.

Definition with_database (v : string) (r : DiagResponse) : DiagResponse :=
  mkDiagResponse (backend r) v (database_url r) (database_name r)
    (connection_status r) (collections r).

Definition with_database_url (v : option string) (r : DiagResponse) : DiagResponse :=
  mkDiagResponse (backend r) (database r) v (database_name r)
    (connection_status r) (collections r).

Definition with_database_name (v : option string) (r : DiagResponse) : DiagResponse :=
  mkDiagResponse (backend r) (database r) (database_url r) v
    (connection_status r) (collections r).

Definition with_connection_status (v : string) (r : DiagResponse) : DiagResponse :=
  mkDiagResponse (backend r) (database r) (database_url r) (database_name r)
    v (collections r).

Definition with_collections (v : list string) (r : DiagResponse) : DiagResponse :=
  mkDiagResponse (backend r) (database r) (database_url r) (database_name r)
    (connection_status r) v.

(** The truth value of [os.getenv(name)]: the variable is set, and not to
    the empty string. *)
Definition getenv_true (v : option string) : bool :=
  match v with
  | Some (String _ _) => true
  | _ => false
  end.

(** [test_database()], as a function of the module-level [db] and of the
    environment variables DATABASE_URL and DATABASE_NAME.  Nothing in the
    outer [try] raises on these inputs, so its [except] branch never runs. *)
Definition test_database (db : option DbClient) (DATABASE_URL DATABASE_NAME : option string)
    : DiagResponse :=
  let response :=
    mkDiagResponse "✅ Running" "❌ Not Available" None None "Not Connected" [] in
  let response :=
    match db with
    | Some d =>
        let response := with_database "✅ Available" response in
        let response := with_database_url (Some "✅ Configured"%string) response in
        let response :=
          with_database_name
            (Some (match db_name d with Some n => n | None => "✅ Connected"%string end))
            response in
        let response := with_connection_status "Connected" response in
        match list_collection_names d with
        | inr names =>
            let response := with_collections (firstn 10 names) response in
            with_database "✅ Connected & Working" response
        | inl e =>
            with_database
              (String.append "⚠️  Connected but Error: " (str_prefix 50 e)) response
        end
    | None => with_database "⚠️  Available but not initialized" response
    end in
  let response :=
    with_database_url
      (Some (if getenv_true DATABASE_URL then "✅ Set" else "❌ Not Set")%string)
      response in
  with_database_name
    (Some (if getenv_true DATABASE_NAME then "✅ Set" else "❌ Not Set")%string)
    response.

(** * Properties *)

(** Closes a range condition on concrete times by computation. *)
Ltac in_range := cbv; split; congruence.

(** ** The store's resolution *)

Lemma bson_datetime_bounds t : bson_datetime t <= t < bson_datetime t + US_PER_MS.
Proof.
  unfold bson_datetime, US_PER_MS.
  pose proof (Z.div_mod t 1000). pose proof (Z.mod_pos_bound t 1000). lia.
Qed.

Lemma bson_datetime_mono a b : a <= b -> bson_datetime a <= bson_datetime b.
Proof.
  intros H. unfold bson_datetime, US_PER_MS.
  apply Z.mul_le_mono_nonneg_r; [lia|]. apply Z.div_le_mono; lia.
Qed.

Lemma bson_datetime_aligned k : bson_datetime (k * US_PER_MS) = k * US_PER_MS.
Proof. unfold bson_datetime, US_PER_MS. now rewrite Z.div_mul by lia. Qed.

Lemma bson_datetime_idem t : bson_datetime (bson_datetime t) = bson_datetime t.
Proof. unfold bson_datetime at 2. apply bson_datetime_aligned. Qed.

(** Against a bound in whole milliseconds, a datetime and its stored value
    compare alike. *)
Lemma bson_datetime_le a t : bson_datetime a <= bson_datetime t <-> bson_datetime a <= t.
Proof.
  split; intros H.
  - pose proof (bson_datetime_bounds t). lia.
  - rewrite <- (bson_datetime_idem a). now apply bson_datetime_mono.
Qed.

Lemma last_seen_gte_stored since d :
  last_seen_gte since d = (bson_datetime since <=? last_seen d).
Proof.
  unfold last_seen_gte.
  destruct (Z.leb_spec (bson_datetime since) (bson_datetime (last_seen d))) as [H|H];
    destruct (Z.leb_spec (bson_datetime since) (last_seen d)) as [H'|H'];
    try reflexivity.
  - pose proof (proj1 (bson_datetime_le _ _) H). lia.
  - pose proof (proj2 (bson_datetime_le _ _) H'). lia.
Qed.

(** ** The store's primitives *)

Section CollectionFacts.
Context {D : Type}.
Implicit Types (q p : D -> bool) (u : D -> D) (c : list D).

Lemma find_one_none q c :
  find_one q c = None <-> forall d, In d c -> q d = false.
Proof.
  unfold find_one. split.
  - intros H d Hd. exact (find_none q c H d Hd).
  - induction c as [|x c IH]; simpl; intros H; [reflexivity|].
    rewrite (H x (or_introl eq_refl)). apply IH. intros d Hd. apply H. now right.
Qed.

Lemma find_one_some q c d :
  find_one q c = Some d -> In d c /\ q d = true.
Proof. unfold find_one. apply find_some. Qed.

Lemma update_one_miss q u ins c :
  find_one q c = None -> update_one q u ins c = c ++ [ins].
Proof.
  unfold find_one. induction c as [|x c IH]; simpl; [reflexivity|].
  destruct (q x); [discriminate|]. intros H. now rewrite IH.
Qed.

Lemma update_one_hit q u ins c d :
  find_one q c = Some d ->
  exists c1 c2, c = c1 ++ d :: c2 /\ update_one q u ins c = c1 ++ u d :: c2
                /\ forall x, In x c1 -> q x = false.
Proof.
  unfold find_one. induction c as [|x c IH]; simpl; [discriminate|].
  destruct (q x) eqn:Hx.
  - intros [= ->]. exists [], c. repeat split. intros ? [].
  - intros H. destruct (IH H) as (c1 & c2 & -> & -> & Hc1).
    exists (x :: c1), c2. repeat split.
    intros y [<-|Hy]; [exact Hx | now apply Hc1].
Qed.

Lemma length_update_one q u ins c :
  List.length (update_one q u ins c) =
  (List.length c + match find_one q c with Some _ => 0 | None => 1 end)%nat.
Proof.
  unfold find_one. induction c as [|x c IH]; simpl; [reflexivity|].
  destruct (q x); simpl; [lia | rewrite IH; reflexivity].
Qed.

(** Finding with the query of the update itself. *)
Lemma find_one_update_one q u ins c :
  (forall d, q d = true -> q (u d) = true) -> q ins = true ->
  find_one q (update_one q u ins c) =
  Some (match find_one q c with Some d => u d | None => ins end).
Proof.
  unfold find_one. intros Hu Hins. induction c as [|x c IH]; simpl.
  - now rewrite Hins.
  - destruct (q x) eqn:Hx; simpl.
    + now rewrite (Hu x Hx).
    + now rewrite Hx.
Qed.

(** Finding with a query that the updated and the inserted documents fail. *)
Lemma find_one_update_other q p u ins c :
  (forall d, q d = true -> p d = false /\ p (u d) = false) -> p ins = false ->
  find_one p (update_one q u ins c) = find_one p c.
Proof.
  unfold find_one. intros Hu Hins. induction c as [|x c IH]; simpl.
  - now rewrite Hins.
  - destruct (q x) eqn:Hx; simpl.
    + destruct (Hu x Hx) as [-> ->]. reflexivity.
    + now rewrite IH.
Qed.

Lemma count_documents_cons p d c :
  count_documents p (d :: c) = (if p d then 1 else 0) + count_documents p c.
Proof.
  unfold count_documents. cbn [filter].
  destruct (p d); cbn [List.length]; lia.
Qed.

(** Counting with a query whose answer the update does not change. *)
Lemma count_update_one q p u ins c :
  (forall d, q d = true -> p (u d) = p d) ->
  count_documents p (update_one q u ins c) =
  count_documents p c +
  match find_one q c with
  | Some _ => 0
  | None => if p ins then 1 else 0
  end.
Proof.
  unfold find_one. intros Hu.
  induction c as [|x c IH]; cbn [update_one find].
  - rewrite count_documents_cons. apply Z.add_comm.
  - destruct (q x) eqn:Hx.
    + rewrite !count_documents_cons, (Hu x Hx). lia.
    + rewrite !count_documents_cons, IH. lia.
Qed.

Lemma count_documents_app p c1 c2 :
  count_documents p (c1 ++ c2) = count_documents p c1 + count_documents p c2.
Proof.
  unfold count_documents. rewrite filter_app, length_app. lia.
Qed.

Lemma count_documents_zero p c :
  (forall d, In d c -> p d = false) -> count_documents p c = 0.
Proof.
  induction c as [|x c IH]; intros H; [reflexivity|].
  rewrite count_documents_cons, (H x (or_introl eq_refl)), IH; [reflexivity|].
  intros d Hd. apply H. now right.
Qed.

Lemma count_documents_nonneg p c : 0 <= count_documents p c.
Proof. unfold count_documents. lia. Qed.

End CollectionFacts.

(** ** The handlers, unfolded *)

Lemma heartbeat_run now payload db :
  heartbeat now payload db =
  (inr (mkHeartbeatOut true),
   let vid := hb_visitor_id payload in
   mkDatabase
     (update_one (by_visitor_id vid) (set_heartbeat vid now) (new_session vid now)
        (session db))
     (match find_one (by_visitor_id vid) (session db) with
      | None => update_one (by_key "global"%string) (inc_total_views 1)
                  (new_sitestat "global"%string 1 now) (sitestat db)
      | Some _ => sitestat db
      end)).
Proof.
  unfold heartbeat, bind, session_find_one, session_update_one. simpl.
  destruct (find_one _ (session db)); reflexivity.
Qed.

Lemma post_heartbeat_str now vid db :
  post_heartbeat now (JStr vid) db = heartbeat now (mkHeartbeatIn vid) db.
Proof. reflexivity. Qed.

Lemma post_heartbeat_invalid now body db :
  (forall s, body <> JStr s) ->
  post_heartbeat now body db = (inl InvalidInput, db).
Proof.
  intros H. destruct body; try reflexivity. now elim (H s).
Qed.

Lemma timedelta_in_range now w :
  valid now -> cutoff_ok now w ->
  timedelta_of_seconds w = inr (w * US_PER_SECOND).
Proof.
  unfold valid, cutoff_ok, timedelta_of_seconds, DATETIME_END, MAXORDINAL,
    MAX_DELTA_DAYS, US_PER_DAY, US_PER_SECOND.
  intros Hn Hc.
  destruct (Z.leb_spec (Z.abs (w * 1000000 / (86400 * 1000000))) 999999999) as [|H];
    [reflexivity|exfalso].
  assert (-3652059 * (86400 * 1000000) < w * 1000000 < 3652059 * (86400 * 1000000)) by lia.
  assert (-3652059 <= w * 1000000 / (86400 * 1000000)).
  { apply Z.div_le_lower_bound; lia. }
  assert (w * 1000000 / (86400 * 1000000) <= 3652059).
  { apply Z.lt_succ_r. apply Z.div_lt_upper_bound; lia. }
  lia.
Qed.

Lemma get_stats_run now w db :
  valid now -> cutoff_ok now w ->
  get_stats now (Some w) db =
  (inr (mkStats
          (count_documents (last_seen_gte (now - w * US_PER_SECOND)) (session db))
          (counter db)),
   db).
Proof.
  intros Hn Hc. unfold get_stats, bind.
  rewrite (timedelta_in_range now w Hn Hc). simpl.
  unfold datetime_sub. unfold cutoff_ok in Hc.
  destruct (Z.leb_spec 0 (now - w * US_PER_SECOND)); [|lia].
  destruct (Z.ltb_spec (now - w * US_PER_SECOND) DATETIME_END); [|lia].
  reflexivity.
Qed.

Lemma get_stats_overflow now w db :
  ~ cutoff_ok now w -> get_stats now (Some w) db = (inl OverflowError, db).
Proof.
  intros Hc. unfold get_stats, bind, timedelta_of_seconds.
  destruct (Z.abs _ <=? MAX_DELTA_DAYS); [|reflexivity]. cbn [lift ret].
  unfold datetime_sub.
  destruct (Z.leb_spec 0 (now - w * US_PER_SECOND));
    destruct (Z.ltb_spec (now - w * US_PER_SECOND) DATETIME_END);
    try reflexivity.
  elim Hc. split; assumption.
Qed.

Lemma get_stats_exec now w db : exec (get_stats now w) db = db.
Proof.
  unfold exec, get_stats, bind.
  destruct (timedelta_of_seconds _) as [e|delta]; simpl; [reflexivity|].
  destruct (datetime_sub now delta); reflexivity.
Qed.

(** ** Effect of one heartbeat on the observations *)

Lemma by_visitor_id_true vid d :
  by_visitor_id vid d = true <-> visitor_id d = vid.
Proof. unfold by_visitor_id. apply String.eqb_eq. Qed.

Lemma by_visitor_id_false vid d :
  by_visitor_id vid d = false <-> visitor_id d <> vid.
Proof. unfold by_visitor_id. apply String.eqb_neq. Qed.

Lemma unseen_find vid db :
  unseen vid db <-> find_one (by_visitor_id vid) (session db) = None.
Proof.
  unfold unseen. rewrite find_one_none. split; intros H d Hd.
  - apply by_visitor_id_false. now apply H.
  - apply by_visitor_id_false. now apply H.
Qed.

Lemma by_visitor_id_set vid v now d :
  by_visitor_id vid d = true ->
  by_visitor_id v (set_heartbeat vid now d) = by_visitor_id v d.
Proof.
  intros H. apply by_visitor_id_true in H. unfold by_visitor_id. simpl. now rewrite H.
Qed.

Lemma by_key_inc k n d : by_key k (inc_total_views n d) = by_key k d.
Proof. reflexivity. Qed.

(** The counter after the increment of a first-seen heartbeat. *)
Lemma counter_incremented now ss st :
  counter (mkDatabase ss
             (update_one (by_key "global"%string) (inc_total_views 1)
                (new_sitestat "global"%string 1 now) st))
  = stat_total_views (find_one (by_key "global"%string) st) + 1.
Proof.
  unfold counter. cbn [sitestat].
  rewrite find_one_update_one; [|intros d Hd; now rewrite by_key_inc|reflexivity].
  destruct (find_one _ st) as [d|]; simpl; [|reflexivity].
  destruct (total_views d); reflexivity.
Qed.

Lemma heartbeat_counter now payload db :
  counter (exec (heartbeat now payload) db) =
  counter db +
  match find_one (by_visitor_id (hb_visitor_id payload)) (session db) with
  | Some _ => 0
  | None => 1
  end.
Proof.
  unfold exec. rewrite heartbeat_run. cbn [snd].
  destruct (find_one _ (session db)).
  - unfold counter. simpl. lia.
  - apply counter_incremented.
Qed.

Lemma heartbeat_sessions_of now payload v db :
  sessions_of v (exec (heartbeat now payload) db) =
  sessions_of v db +
  match find_one (by_visitor_id (hb_visitor_id payload)) (session db) with
  | Some _ => 0
  | None => if String.eqb (hb_visitor_id payload) v then 1 else 0
  end.
Proof.
  unfold exec, sessions_of. rewrite heartbeat_run. cbn [snd session].
  rewrite count_update_one; [reflexivity|].
  intros d Hd. now apply by_visitor_id_set.
Qed.

Lemma heartbeat_find_same now vid db :
  find_one (by_visitor_id vid) (session (exec (heartbeat now (mkHeartbeatIn vid)) db)) =
  Some (match find_one (by_visitor_id vid) (session db) with
        | Some d => set_heartbeat vid now d
        | None => new_session vid now
        end).
Proof.
  unfold exec. rewrite heartbeat_run. cbn [snd session hb_visitor_id].
  apply find_one_update_one.
  - intros d Hd. now rewrite by_visitor_id_set.
  - apply String.eqb_refl.
Qed.

Lemma heartbeat_find_other now vid v db :
  vid <> v ->
  find_one (by_visitor_id v) (session (exec (heartbeat now (mkHeartbeatIn vid)) db)) =
  find_one (by_visitor_id v) (session db).
Proof.
  intros Hne. unfold exec. rewrite heartbeat_run. cbn [snd session hb_visitor_id].
  apply find_one_update_other.
  - intros d Hd. rewrite (by_visitor_id_set _ _ _ _ Hd).
    apply by_visitor_id_true in Hd. unfold by_visitor_id. rewrite Hd.
    split; now apply String.eqb_neq.
  - now apply String.eqb_neq.
Qed.

Lemma heartbeats_cons vid t ts db :
  heartbeats vid (t :: ts) db =
  heartbeats vid ts (exec (heartbeat t (mkHeartbeatIn vid)) db).
Proof. reflexivity. Qed.

Lemma heartbeats_snoc vid ts t db :
  heartbeats vid (ts ++ [t]) db =
  exec (heartbeat t (mkHeartbeatIn vid)) (heartbeats vid ts db).
Proof.
  unfold heartbeats, serve_all. rewrite map_app, fold_left_app. reflexivity.
Qed.

(** Once the visitor has a Session record, heartbeats change neither the
    number of its records nor the counter. *)
Lemma heartbeats_seen vid ts :
  forall db,
    find_one (by_visitor_id vid) (session db) <> None ->
    sessions_of vid (heartbeats vid ts db) = sessions_of vid db
    /\ counter (heartbeats vid ts db) = counter db
    /\ find_one (by_visitor_id vid) (session (heartbeats vid ts db)) <> None.
Proof.
  induction ts as [|t ts IH]; intros db Hseen; [now repeat split|].
  rewrite heartbeats_cons.
  destruct (IH (exec (heartbeat t (mkHeartbeatIn vid)) db)) as (Hs & Hc & Hf).
  { rewrite heartbeat_find_same. discriminate. }
  rewrite Hs, Hc, heartbeat_sessions_of, heartbeat_counter. cbn [hb_visitor_id].
  destruct (find_one _ (session db)); [|contradiction].
  repeat split; try lia. exact Hf.
Qed.

(** C1: N >= 1 sequential heartbeats of a visitor without a Session record
    (the list [t :: ts] of the times of the calls) all succeed, leave exactly
    one Session record for the visitor and the counter one higher; the first
    call alone accounts for the increment, and a further call after any
    number of calls leaves the counter as it is. *)
Theorem C1_sequential_heartbeats_count_once vid t ts db :
  unseen vid db ->
  (forall now db0, outcome (post_heartbeat now (JStr vid)) db0 = inr (mkHeartbeatOut true))
  /\ sessions_of vid (heartbeats vid (t :: ts) db) = 1
  /\ counter (heartbeats vid (t :: ts) db) = counter db + 1
  /\ counter (heartbeats vid [t] db) = counter db + 1
  /\ (forall ts1 t',
        counter (heartbeats vid ((t :: ts1) ++ [t']) db) =
        counter (heartbeats vid (t :: ts1) db)).
Proof.
  intros Hun. pose proof (proj1 (unseen_find vid db) Hun) as Hnone.
  assert (Hzero : sessions_of vid db = 0).
  { apply count_documents_zero. intros d Hd. apply by_visitor_id_false. now apply Hun. }
  assert (Hfirst : forall l,
    sessions_of vid (heartbeats vid (t :: l) db) = 1
    /\ counter (heartbeats vid (t :: l) db) = counter db + 1
    /\ find_one (by_visitor_id vid) (session (heartbeats vid (t :: l) db)) <> None).
  { intros l. rewrite heartbeats_cons.
    destruct (heartbeats_seen vid l (exec (heartbeat t (mkHeartbeatIn vid)) db))
      as (Hs & Hc & Hf).
    { rewrite heartbeat_find_same. discriminate. }
    rewrite Hs, Hc, heartbeat_sessions_of, heartbeat_counter. cbn [hb_visitor_id].
    rewrite Hnone, String.eqb_refl, Hzero. repeat split; try lia. exact Hf. }
  split; [|split; [|split; [|split]]].
  - intros now db0. unfold outcome. rewrite post_heartbeat_str, heartbeat_run. reflexivity.
  - apply Hfirst.
  - apply Hfirst.
  - apply Hfirst.
  - intros ts1 t'. rewrite heartbeats_snoc, heartbeat_counter. cbn [hb_visitor_id].
    destruct (Hfirst ts1) as (_ & _ & Hf).
    destruct (find_one _ (session (heartbeats vid (t :: ts1) db))); [lia|contradiction].
Qed.

Lemma C1_sequential_heartbeats_count_once_witness :
  sessions_of "abc" (heartbeats "abc" [10; 20; 30] (mkDatabase [mkSession "xyz" 5 (Some 5)] [mkSitestat "global" (Some 1) (Some 5)])) = 1
  /\ counter (heartbeats "abc" [10; 20; 30] (mkDatabase [mkSession "xyz" 5 (Some 5)] [mkSitestat "global" (Some 1) (Some 5)])) = 2.
Proof.
  assert (Hun : unseen "abc" (mkDatabase [mkSession "xyz" 5 (Some 5)] [mkSitestat "global" (Some 1) (Some 5)])).
  { intros d [<-|[]]. simpl. discriminate. }
  destruct (C1_sequential_heartbeats_count_once "abc" 10 [20; 30] _ Hun)
    as (_ & Hs & Hc & _).
  split; [exact Hs | exact Hc].
Defined.

(** ** The counter invariant *)

Lemma serve_get_stats db now w : serve db (GetStats now w) = db.
Proof. apply get_stats_exec. Qed.

Lemma serve_invalid db now body :
  (forall s, body <> JStr s) -> serve db (Heartbeat now body) = db.
Proof.
  intros H. unfold serve, exec. now rewrite post_heartbeat_invalid.
Qed.

(** Every request either leaves the database alone or is a heartbeat with a
    string for a visitor id. *)
Lemma serve_cases db r :
  serve db r = db
  \/ exists now vid, r = Heartbeat now (JStr vid)
       /\ serve db r = exec (heartbeat now (mkHeartbeatIn vid)) db.
Proof.
  destruct r as [now body|now w].
  - destruct body as [| |n|s];
      try (left; apply serve_invalid; intros s; discriminate).
    right. exists now, s. split; reflexivity.
  - left. apply serve_get_stats.
Qed.

Lemma heartbeat_session_miss now vid db :
  find_one (by_visitor_id vid) (session db) = None ->
  session (exec (heartbeat now (mkHeartbeatIn vid)) db) =
  session db ++ [new_session vid now].
Proof.
  intros H. unfold exec. rewrite heartbeat_run. cbn [snd session hb_visitor_id].
  now apply update_one_miss.
Qed.

Lemma heartbeat_session_hit now vid db d :
  find_one (by_visitor_id vid) (session db) = Some d ->
  exists c1 c2,
    session db = c1 ++ d :: c2
    /\ session (exec (heartbeat now (mkHeartbeatIn vid)) db) =
       c1 ++ mkSession (visitor_id d) now (created_at d) :: c2
    /\ sitestat (exec (heartbeat now (mkHeartbeatIn vid)) db) = sitestat db.
Proof.
  intros H. unfold exec. rewrite heartbeat_run. cbn [snd session sitestat hb_visitor_id].
  rewrite H.
  destruct (update_one_hit (by_visitor_id vid) (set_heartbeat vid now)
              (new_session vid now) (session db) d H) as (c1 & c2 & E1 & E2 & _).
  exists c1, c2. repeat split; [exact E1|].
  rewrite E2. unfold set_heartbeat.
  apply find_one_some in H. destruct H as [_ H]. apply by_visitor_id_true in H.
  now rewrite H.
Qed.

Lemma heartbeat_length now vid db :
  List.length (session (exec (heartbeat now (mkHeartbeatIn vid)) db)) =
  (List.length (session db) +
   match find_one (by_visitor_id vid) (session db) with Some _ => 0 | None => 1 end)%nat.
Proof.
  unfold exec. rewrite heartbeat_run. cbn [snd session hb_visitor_id].
  apply length_update_one.
Qed.

Lemma heartbeat_inv now vid db :
  counter_inv db -> counter_inv (exec (heartbeat now (mkHeartbeatIn vid)) db).
Proof.
  intros [Hsingle Hglobal Hnodup Hcount].
  destruct (find_one (by_visitor_id vid) (session db)) as [d|] eqn:Hfind.
  - destruct (heartbeat_session_hit now vid db d Hfind) as (c1 & c2 & E1 & E2 & E3).
    assert (Hlen : List.length (session (exec (heartbeat now (mkHeartbeatIn vid)) db))
                   = List.length (session db)).
    { rewrite heartbeat_length, Hfind. lia. }
    split.
    + now rewrite E3.
    + rewrite E3, Hlen. exact Hglobal.
    + rewrite E2. rewrite E1 in Hnodup.
      rewrite map_app in *. exact Hnodup.
    + rewrite Hlen, heartbeat_counter. cbn [hb_visitor_id]. rewrite Hfind. lia.
  - assert (Hlen : List.length (session (exec (heartbeat now (mkHeartbeatIn vid)) db))
                   = S (List.length (session db))).
    { rewrite heartbeat_length, Hfind. lia. }
    assert (Hst : sitestat (exec (heartbeat now (mkHeartbeatIn vid)) db) =
                  [mkSitestat "global" (Some (Z.of_nat (List.length (session db)) + 1))
                     (match sitestat db with
                      | d :: _ => stat_created_at d
                      | [] => Some now
                      end)]).
    { unfold exec. rewrite heartbeat_run. cbn [snd session sitestat hb_visitor_id].
      rewrite Hfind. unfold counter, find_one in Hcount.
      destruct (sitestat db) as [|d [|d' st]].
      - cbn [find stat_total_views] in Hcount. rewrite <- Hcount. reflexivity.
      - destruct (Hglobal d (or_introl eq_refl)) as [Hk Ht].
        cbn [update_one]. unfold by_key. rewrite Hk, String.eqb_refl.
        unfold inc_total_views. rewrite Hk, Ht. reflexivity.
      - cbn [List.length] in Hsingle. lia. }
    split.
    + rewrite Hst. cbn [List.length]. lia.
    + rewrite Hst, Hlen, Nat2Z.inj_succ. intros x [<-|[]]. split; reflexivity.
    + rewrite (heartbeat_session_miss now vid db Hfind), map_app.
      apply NoDup_app; [exact Hnodup | repeat constructor; intros [] | ].
      intros x Hx [<-|[]]. apply in_map_iff in Hx. destruct Hx as (d & Hd & Hin).
      apply unseen_find in Hfind. exact (Hfind d Hin Hd).
    + rewrite Hlen, heartbeat_counter. cbn [hb_visitor_id]. rewrite Hfind. lia.
Qed.

Lemma empty_inv : counter_inv empty_db.
Proof.
  split; simpl; [lia | intros d [] | constructor | reflexivity].
Qed.

Lemma serve_inv db r : counter_inv db -> counter_inv (serve db r).
Proof.
  intros H. destruct (serve_cases db r) as [->|(now & vid & _ & ->)];
    [exact H | now apply heartbeat_inv].
Qed.

Lemma serve_all_inv rs : forall db, counter_inv db -> counter_inv (serve_all rs db).
Proof.
  induction rs as [|r rs IH]; intros db H; [exact H|].
  apply (IH (serve db r)). now apply serve_inv.
Qed.

Lemma serve_counter_mono db r : counter db <= counter (serve db r).
Proof.
  destruct (serve_cases db r) as [->|(now & vid & _ & ->)]; [lia|].
  rewrite heartbeat_counter. destruct (find_one _ _); lia.
Qed.

Lemma serve_length_mono db r :
  (List.length (session db) <= List.length (session (serve db r)))%nat.
Proof.
  destruct (serve_cases db r) as [->|(now & vid & _ & ->)]; [lia|].
  rewrite heartbeat_length. lia.
Qed.

(** C2: in every state that requests served one after the other reach from
    the empty store, there is at most one counter document, it is keyed
    "global" and its total_views is the number of Session records, which are
    of pairwise distinct visitors (records are never removed, so this is the
    number ever created); after one heartbeat each of two distinct visitors on
    the empty store there are exactly two Session records and the counter is
    2; and no request, in any state, lowers the counter or removes a record. *)
Theorem C2_counter_equals_sessions rs v1 v2 t1 t2 :
  v1 <> v2 ->
  (let db := serve_all rs empty_db in
   (List.length (sitestat db) <= 1)%nat
   /\ (forall d, In d (sitestat db) ->
         key d = "global"%string
         /\ total_views d = Some (Z.of_nat (List.length (session db))))
   /\ counter db = Z.of_nat (List.length (session db))
   /\ NoDup (map visitor_id (session db)))
  /\ (let db := serve_all [Heartbeat t1 (JStr v1); Heartbeat t2 (JStr v2)] empty_db in
      session db = [new_session v1 t1; new_session v2 t2]
      /\ List.length (session db) = 2%nat
      /\ counter db = 2)
  /\ (forall db r,
        counter db <= counter (serve db r)
        /\ (List.length (session db) <= List.length (session (serve db r)))%nat).
Proof.
  intros Hne. split; [|split].
  - destruct (serve_all_inv rs empty_db empty_inv) as [H1 H2 H3 H4].
    cbv zeta. repeat split; try assumption; now apply H2.
  - cbv zeta. unfold serve_all, fold_left, serve, exec.
    rewrite !post_heartbeat_str, !heartbeat_run. cbn -[String.eqb].
    apply String.eqb_neq in Hne. unfold by_visitor_id. cbn -[String.eqb].
    rewrite Hne. cbn. repeat split.
  - intros db r. split; [apply serve_counter_mono | apply serve_length_mono].
Qed.

Lemma C2_counter_equals_sessions_witness :
  counter (serve_all [Heartbeat 10 (JStr "a"); Heartbeat 20 (JStr "b")] empty_db) = 2
  /\ List.length (session (serve_all [Heartbeat 10 (JStr "a"); Heartbeat 20 (JStr "b")] empty_db)) = 2%nat.
Proof.
  assert (Hne : "a"%string <> "b"%string) by discriminate.
  destruct (C2_counter_equals_sessions [] "a" "b" 10 20 Hne) as (_ & (_ & Hl & Hc) & _).
  split; [exact Hc | exact Hl].
Defined.

(** ** Validation of the heartbeat body *)

(** C3, as stated, fails: the empty string is a valid [visitor_id]; the
    heartbeat succeeds, creates a Session record and increments the counter. *)
Lemma C3_empty_visitor_id_is_accepted :
  post_heartbeat 10 (JStr "") empty_db =
    (inr (mkHeartbeatOut true),
     mkDatabase [mkSession "" 10 (Some 10)] [mkSitestat "global" (Some 1) (Some 10)])
  /\ ~ (outcome (post_heartbeat 10 (JStr "")) empty_db = inl InvalidInput
        /\ exec (post_heartbeat 10 (JStr "")) empty_db = empty_db).
Proof.
  split; [reflexivity|]. intros [H _]. discriminate H.
Qed.

(** C3, amended: a heartbeat whose body has no string under "visitor_id"
    (the field is missing, null or not a string) fails with InvalidInput and
    leaves the store unchanged, so no Session record is created or updated
    and the counter is not incremented; the empty string is a string like
    any other: the heartbeat is served, the counter is incremented when the
    visitor "" had no Session record, and it has one afterwards. *)
Theorem C3_missing_visitor_id_rejected now body db :
  (forall s, body <> JStr s) ->
  outcome (post_heartbeat now body) db = inl InvalidInput
  /\ exec (post_heartbeat now body) db = db
  /\ session (exec (post_heartbeat now body) db) = session db
  /\ counter (exec (post_heartbeat now body) db) = counter db
  /\ outcome (post_heartbeat now (JStr "")) db = inr (mkHeartbeatOut true)
  /\ counter (exec (post_heartbeat now (JStr "")) db) =
     counter db + match find_one (by_visitor_id "") (session db) with
                  | Some _ => 0
                  | None => 1
                  end
  /\ 1 <= sessions_of "" (exec (post_heartbeat now (JStr "")) db).
Proof.
  intros H. unfold outcome, exec. rewrite (post_heartbeat_invalid now body db H).
  cbn [fst snd]. repeat split.
  - rewrite post_heartbeat_str, heartbeat_run. reflexivity.
  - rewrite post_heartbeat_str.
    exact (heartbeat_counter now (mkHeartbeatIn "") db).
  - rewrite post_heartbeat_str.
    pose proof (heartbeat_sessions_of now (mkHeartbeatIn "") "" db) as Hs.
    unfold exec in Hs. rewrite Hs. cbn [hb_visitor_id].
    pose proof (count_documents_nonneg (by_visitor_id "") (session db)) as Hnn.
    fold (sessions_of "" db) in Hnn.
    destruct (find_one (by_visitor_id "") (session db)) as [d|] eqn:Hfind.
    + apply find_one_some in Hfind. destruct Hfind as [Hin Hq].
      apply in_split in Hin. destruct Hin as (c1 & c2 & E).
      unfold sessions_of in *. rewrite E, count_documents_app, count_documents_cons, Hq.
      pose proof (count_documents_nonneg (by_visitor_id "") c1).
      pose proof (count_documents_nonneg (by_visitor_id "") c2). lia.
    + cbn. lia.
Qed.

Lemma C3_missing_visitor_id_rejected_witness :
  outcome (post_heartbeat 10 JMissing) empty_db = inl InvalidInput
  /\ exec (post_heartbeat 10 JMissing) empty_db = empty_db.
Proof.
  assert (H : forall s, JMissing <> JStr s) by (intros s; discriminate).
  destruct (C3_missing_visitor_id_rejected 10 JMissing empty_db H) as (Ho & He & _).
  split; [exact Ho | exact He].
Defined.

(** ** GET /api/stats *)

(** C7: [get_stats] reads only: whatever the database, the time and the
    window argument (given or omitted), and whether it answers or raises, it
    leaves the Session records and the counter documents as they were. *)
Theorem C7_get_stats_is_a_read now w db :
  exec (get_stats now w) db = db
  /\ session (snd (get_stats now w db)) = session db
  /\ sitestat (snd (get_stats now w db)) = sitestat db.
Proof.
  pose proof (get_stats_exec now w db) as H. unfold exec in *.
  rewrite H. repeat split.
Qed.

Lemma active_at_run now w db :
  valid now -> cutoff_ok now w ->
  active_at now w db =
  Some (count_documents (last_seen_gte (now - w * US_PER_SECOND)) (session db)).
Proof.
  intros Hn Hc. unfold active_at, answer, outcome.
  now rewrite (get_stats_run now w db Hn Hc).
Qed.

(** The two scenarios of the stats endpoint: a heartbeat of "abc" at
    2025-11-29T08:00:00, then the statistics for a window of 120 seconds,
    at once and 130 seconds later. *)
Example stats_right_after_heartbeat :
  outcome (get_stats 63900000000000000 (Some 120))
    (exec (post_heartbeat 63900000000000000 (JStr "abc")) empty_db)
  = inr (mkStats 1 1).
Proof. reflexivity. Qed.

Example stats_130_seconds_after_heartbeat :
  outcome (get_stats (63900000000000000 + 130 * US_PER_SECOND) (Some 120))
    (exec (post_heartbeat 63900000000000000 (JStr "abc")) empty_db)
  = inr (mkStats 0 1).
Proof. reflexivity. Qed.

(** C4, as stated, fails, in two ways.  For a window of 10^14 seconds the
    handler answers nothing at all: [timedelta(seconds=10**14)] raises
    OverflowError (the time is 2025-11-29T08:00:00).  And the comparison is
    made in whole milliseconds: with [now - w] equal to 07:58:00.000500, a
    record whose [last_seen] is 07:58:00.000, before [now - w], is counted. *)
Lemma C4_window_beyond_timedelta_range :
  (outcome (get_stats 63900000000000000 (Some 100000000000000))
     (mkDatabase [mkSession "abc" 63900000000000000 (Some 63900000000000000)]
                 [mkSitestat "global" (Some 1) (Some 63900000000000000)])
   = inl OverflowError
   /\ active_at 63900000000000000 100000000000000
        (mkDatabase [mkSession "abc" 63900000000000000 (Some 63900000000000000)]
                    [mkSitestat "global" (Some 1) (Some 63900000000000000)])
      = None)
  /\ (outcome (get_stats 63900000000000500 (Some 120))
        (mkDatabase [mkSession "abc" 63899999880000000 (Some 63899999880000000)]
                    [mkSitestat "global" (Some 1) (Some 63899999880000000)])
      = inr (mkStats 1 1)
      /\ 63899999880000000 < 63900000000000500 - 120 * US_PER_SECOND).
Proof. repeat split. Qed.

(** C4, amended: for every store state, every time [now] and every window
    of [w] seconds whose cutoff [now - w] is a representable datetime,
    [get_stats] answers with [active] the number of Session records whose
    [last_seen], as the store keeps it, is greater than or equal to the
    cutoff cut to the millisecond (the cutoff itself when it is a whole
    number of milliseconds), and with [total] the counter; the boundary is
    inclusive: a record with stored [last_seen] equal to that cutoff adds one
    to [active], a record one millisecond older adds nothing. *)
Theorem C4_active_counts_recent_sessions now w db :
  valid now -> cutoff_ok now w ->
  let since := bson_datetime (now - w * US_PER_SECOND) in
  outcome (get_stats now (Some w)) db =
    inr (mkStats
           (Z.of_nat (List.length
                        (filter (fun d => since <=? bson_datetime (last_seen d))
                           (session db))))
           (counter db))
  /\ (forall c1 d c2 st,
        bson_datetime (last_seen d) = since ->
        active_at now w (mkDatabase (c1 ++ d :: c2) st) =
        option_map (fun a => a + 1) (active_at now w (mkDatabase (c1 ++ c2) st)))
  /\ (forall c1 d c2 st,
        bson_datetime (last_seen d) = since - US_PER_MS ->
        active_at now w (mkDatabase (c1 ++ d :: c2) st) =
        active_at now w (mkDatabase (c1 ++ c2) st))
  /\ ((now - w * US_PER_SECOND) mod US_PER_MS = 0 -> since = now - w * US_PER_SECOND).
Proof.
  intros Hn Hc since. split; [|split; [|split]].
  - unfold outcome. rewrite (get_stats_run now w db Hn Hc). reflexivity.
  - intros c1 d c2 st Hd. rewrite !active_at_run by assumption. cbn [session option_map].
    rewrite !count_documents_app, count_documents_cons.
    unfold last_seen_gte at 2. fold since. rewrite Hd, Z.leb_refl. f_equal. lia.
  - intros c1 d c2 st Hd. rewrite !active_at_run by assumption. cbn [session].
    rewrite !count_documents_app, count_documents_cons.
    unfold last_seen_gte at 2. fold since. rewrite Hd. unfold US_PER_MS.
    destruct (Z.leb_spec since (since - 1000)); [lia|]. f_equal.
  - intros Hmod. unfold since, bson_datetime.
    pose proof (Z.div_mod (now - w * US_PER_SECOND) US_PER_MS). unfold US_PER_MS in *. lia.
Qed.

Lemma C4_active_counts_recent_sessions_witness :
  outcome (get_stats 63900000000000000 (Some 120))
    (mkDatabase [mkSession "abc" 63899999880000000 None;
                 mkSession "xyz" 63899999879999000 None] [])
  = inr (mkStats 1 0).
Proof.
  assert (Hn : valid 63900000000000000) by in_range.
  assert (Hc : cutoff_ok 63900000000000000 120) by in_range.
  exact (proj1 (C4_active_counts_recent_sessions 63900000000000000 120
           (mkDatabase [mkSession "abc" 63899999880000000 None;
                        mkSession "xyz" 63899999879999000 None] []) Hn Hc)).
Defined.

(** C5, as stated, fails: on the empty store, at 2025-11-29T08:00:00, a
    window of 10^11 seconds puts the cutoff before the year 1 and the
    subtraction raises OverflowError: [get_stats] does not return
    [{active: 0, total: 0}]. *)
Lemma C5_cold_start_window_before_year_one :
  get_stats 63900000000000000 (Some 100000000000) empty_db
  = (inl OverflowError, empty_db)
  /\ outcome (get_stats 63900000000000000 (Some 100000000000)) empty_db
     <> inr (mkStats 0 0).
Proof. split; [reflexivity | discriminate]. Qed.

(** C5, amended: whenever the cutoff [now - w] is a representable datetime
    (as it is for the default window at any time from 0001-01-01T00:02:00
    on), [get_stats] on the empty store answers [{active: 0, total: 0}];
    on any store it answers with both fields integers, and [total] is 0
    when no counter document keyed "global" exists, or when that document
    has no [total_views]. *)
Theorem C5_cold_start_answers_zero now w db :
  valid now -> cutoff_ok now w ->
  get_stats now (Some w) empty_db = (inr (mkStats 0 0), empty_db)
  /\ (exists a t : Z, outcome (get_stats now (Some w)) db = inr (mkStats a t))
  /\ (find_one (by_key "global"%string) (sitestat db) = None ->
      exists a : Z, outcome (get_stats now (Some w)) db = inr (mkStats a 0))
  /\ (forall d, find_one (by_key "global"%string) (sitestat db) = Some d ->
      total_views d = None ->
      exists a : Z, outcome (get_stats now (Some w)) db = inr (mkStats a 0))
  /\ (w = 120 -> get_stats now None empty_db = (inr (mkStats 0 0), empty_db)).
Proof.
  intros Hn Hc. unfold outcome. rewrite !(get_stats_run now w _ Hn Hc).
  cbn [fst]. split; [reflexivity|]. split; [eauto|]. split; [|split].
  - intros H. unfold counter. rewrite H. eauto.
  - intros d H Ht. unfold counter. rewrite H. cbn [stat_total_views]. rewrite Ht. eauto.
  - intros ->. change (get_stats now None) with (get_stats now (Some 120)).
    now rewrite (get_stats_run now 120 _ Hn Hc).
Qed.

Lemma C5_cold_start_answers_zero_witness :
  get_stats 63900000000000000 (Some 120) empty_db = (inr (mkStats 0 0), empty_db).
Proof.
  assert (Hn : valid 63900000000000000) by in_range.
  assert (Hc : cutoff_ok 63900000000000000 120) by in_range.
  exact (proj1 (C5_cold_start_answers_zero 63900000000000000 120 empty_db Hn Hc)).
Defined.

(** C9, as stated, fails: not every integer is accepted without error.  At
    2025-11-29T08:00:00 the negative window of -10^12 seconds puts the cutoff
    after the year 9999, and a window of 86400 * 10^9 seconds is more than a
    timedelta holds: both raise OverflowError. *)
Lemma C9_window_raises_overflow :
  outcome (get_stats 63900000000000000 (Some (-1000000000000))) empty_db
  = inl OverflowError
  /\ outcome (get_stats 63900000000000000 (Some 86400000000000)) empty_db
     = inl OverflowError.
Proof. split; reflexivity. Qed.

(** C9, amended: [get_stats] validates nothing: every integer
    [window_seconds], zero and negative ones included, for which
    [now - window_seconds] is a representable datetime is accepted, and the
    cutoff is that datetime; for a negative window the cutoff lies after
    [now] and every record counted in [active] has [last_seen] strictly
    after [now], so that [active] is 0 when no record is ahead of the clock;
    for the window 0 the cutoff is [now]; an omitted window is 120.  For
    every other integer the call raises OverflowError. *)
Theorem C9_window_is_not_validated now w db :
  valid now ->
  let since := now - w * US_PER_SECOND in
  (cutoff_ok now w ->
   outcome (get_stats now (Some w)) db =
     inr (mkStats (count_documents (last_seen_gte since) (session db)) (counter db))
   /\ (w < 0 ->
       now < since
       /\ (forall d, In d (filter (last_seen_gte since) (session db)) -> now < last_seen d)
       /\ ((forall d, In d (session db) -> last_seen d <= now) ->
           active_at now w db = Some 0))
   /\ (w = 0 -> since = now))
  /\ (~ cutoff_ok now w -> outcome (get_stats now (Some w)) db = inl OverflowError)
  /\ get_stats now None db = get_stats now (Some 120) db.
Proof.
  intros Hn since.
  assert (Hsince : w < 0 -> now < since).
  { intros Hw. unfold since, US_PER_SECOND. lia. }
  split; [|split].
  - intros Hc. split; [|split].
    + unfold outcome. now rewrite (get_stats_run now w db Hn Hc).
    + intros Hw. specialize (Hsince Hw). split; [exact Hsince|]. split.
      * intros d Hd. apply filter_In in Hd. destruct Hd as [_ Hd].
        rewrite last_seen_gte_stored in Hd. apply Z.leb_le in Hd.
        pose proof (bson_datetime_bounds since) as Hb.
        unfold since, US_PER_SECOND, US_PER_MS in *. lia.
      * intros Hall. rewrite (active_at_run now w db Hn Hc). fold since. f_equal.
        apply count_documents_zero. intros d Hd. rewrite last_seen_gte_stored.
        apply Z.leb_gt. specialize (Hall d Hd).
        pose proof (bson_datetime_bounds since) as Hb.
        unfold since, US_PER_SECOND, US_PER_MS in *. lia.
    + intros ->. unfold since. lia.
  - intros Hc. unfold outcome. now rewrite (get_stats_overflow now w db Hc).
  - reflexivity.
Qed.

Lemma C9_window_is_not_validated_witness :
  outcome (get_stats 63900000000000000 (Some (-120)))
    (mkDatabase [mkSession "abc" 63900000000000000 None] [])
  = inr (mkStats 0 0).
Proof.
  assert (Hn : valid 63900000000000000) by in_range.
  assert (Hc : cutoff_ok 63900000000000000 (-120)) by in_range.
  exact (proj1 (proj1 (C9_window_is_not_validated 63900000000000000 (-120)
           (mkDatabase [mkSession "abc" 63900000000000000 None] []) Hn) Hc)).
Defined.

(** ** Timestamps of a Session record *)

(** Where a record of the database after a heartbeat comes from. *)
Lemma heartbeat_session_in now vid db x :
  In x (session (exec (heartbeat now (mkHeartbeatIn vid)) db)) ->
  In x (session db)
  \/ x = new_session vid now
  \/ exists d, In d (session db) /\ x = mkSession (visitor_id d) now (created_at d).
Proof.
  destruct (find_one (by_visitor_id vid) (session db)) as [d|] eqn:Hfind.
  - destruct (heartbeat_session_hit now vid db d Hfind) as (c1 & c2 & E1 & E2 & _).
    rewrite E2, E1. intros Hx. apply in_app_or in Hx. destruct Hx as [Hx|[<-|Hx]].
    + left. apply in_or_app. now left.
    + right. right. exists d. split; [|reflexivity]. apply in_or_app. right. now left.
    + left. apply in_or_app. right. now right.
  - rewrite (heartbeat_session_miss now vid db Hfind). intros Hx.
    apply in_app_or in Hx. destruct Hx as [Hx|[<-|[]]]; [now left | right; now left].
Qed.

Lemma serve_keeps_created vid db r d :
  find_one (by_visitor_id vid) (session db) = Some d ->
  exists d', find_one (by_visitor_id vid) (session (serve db r)) = Some d'
             /\ visitor_id d' = visitor_id d /\ created_at d' = created_at d.
Proof.
  intros Hfind.
  destruct (serve_cases db r) as [->|(now & v & _ & ->)]; [now exists d|].
  destruct (String.eqb_spec v vid) as [->|Hne].
  - rewrite heartbeat_find_same, Hfind. eexists. split; [reflexivity|].
    apply find_one_some in Hfind. destruct Hfind as [_ Hq].
    apply by_visitor_id_true in Hq. now split.
  - rewrite (heartbeat_find_other now v vid db Hne), Hfind. now exists d.
Qed.

Lemma serve_all_keeps_created vid rs :
  forall db d,
    find_one (by_visitor_id vid) (session db) = Some d ->
    exists d', find_one (by_visitor_id vid) (session (serve_all rs db)) = Some d'
               /\ visitor_id d' = visitor_id d /\ created_at d' = created_at d.
Proof.
  induction rs as [|r rs IH]; intros db d Hfind; [now exists d|].
  destruct (serve_keeps_created vid db r d Hfind) as (d1 & H1 & Hv1 & Hc1).
  destruct (IH (serve db r) d1 H1) as (d2 & H2 & Hv2 & Hc2).
  exists d2. split; [exact H2|]. split; congruence.
Qed.

(** C6: the first heartbeat of a visitor creates its Session record with
    [created_at] the time of that call; whatever requests are served after
    it, the record found for the visitor keeps that [created_at] and its
    [visitor_id]; and a heartbeat of a visitor that has a record replaces, in
    that one record, [last_seen] alone, every other record and the counter
    documents staying as they are. *)
Theorem C6_created_at_is_set_once vid t0 db rs :
  unseen vid db ->
  let db1 := exec (post_heartbeat t0 (JStr vid)) db in
  find_one (by_visitor_id vid) (session db1) = Some (mkSession vid t0 (Some t0))
  /\ (exists d, find_one (by_visitor_id vid) (session (serve_all rs db1)) = Some d
                /\ visitor_id d = vid /\ created_at d = Some t0)
  /\ (forall now db2 d,
        find_one (by_visitor_id vid) (session db2) = Some d ->
        exists c1 c2,
          session db2 = c1 ++ d :: c2
          /\ session (exec (post_heartbeat now (JStr vid)) db2) =
             c1 ++ mkSession (visitor_id d) now (created_at d) :: c2
          /\ sitestat (exec (post_heartbeat now (JStr vid)) db2) = sitestat db2).
Proof.
  intros Hun db1.
  assert (H1 : find_one (by_visitor_id vid) (session db1) = Some (mkSession vid t0 (Some t0))).
  { unfold db1, exec. rewrite post_heartbeat_str.
    pose proof (heartbeat_find_same t0 vid db) as H. unfold exec in H. rewrite H.
    apply unseen_find in Hun. now rewrite Hun. }
  split; [exact H1|]. split.
  - destruct (serve_all_keeps_created vid rs db1 _ H1) as (d & Hd & Hv & Hc).
    exists d. repeat split; assumption.
  - intros now db2 d Hfind. apply (heartbeat_session_hit now vid db2 d Hfind).
Qed.

Lemma C6_created_at_is_set_once_witness :
  exists d,
    find_one (by_visitor_id "abc")
      (session (serve_all [Heartbeat 20 (JStr "xyz"); Heartbeat 30 (JStr "abc")]
                  (exec (post_heartbeat 10 (JStr "abc")) empty_db))) = Some d
    /\ visitor_id d = "abc"%string /\ created_at d = Some 10.
Proof.
  assert (Hun : unseen "abc" empty_db) by (intros d []).
  exact (proj1 (proj2 (C6_created_at_is_set_once "abc" 10 empty_db
                         [Heartbeat 20 (JStr "xyz"); Heartbeat 30 (JStr "abc")] Hun))).
Defined.

Lemma seen_upto_le t1 t2 db : t1 <= t2 -> seen_upto t1 db -> seen_upto t2 db.
Proof. intros Hle H d Hd. specialize (H d Hd). lia. Qed.

Lemma heartbeat_stamps now vid db :
  stamps_inv db -> seen_upto now db ->
  stamps_inv (exec (heartbeat now (mkHeartbeatIn vid)) db)
  /\ seen_upto now (exec (heartbeat now (mkHeartbeatIn vid)) db).
Proof.
  intros Hst Hup. split; intros x Hx;
    destruct (heartbeat_session_in now vid db x Hx) as [Hin|[->|(d & Hin & ->)]].
  - now apply Hst.
  - exists now. split; [reflexivity | simpl; lia].
  - destruct (Hst d Hin) as (c & Hc & Hle). exists c. split; [exact Hc|].
    specialize (Hup d Hin). simpl. lia.
  - now apply Hup.
  - simpl. lia.
  - simpl. lia.
Qed.

Lemma serve_stamps db r :
  stamps_inv db -> seen_upto (request_time r) db ->
  stamps_inv (serve db r) /\ seen_upto (request_time r) (serve db r).
Proof.
  intros Hst Hup.
  destruct (serve_cases db r) as [->|(now & vid & -> & ->)]; [now split|].
  now apply heartbeat_stamps.
Qed.

Lemma serve_all_stamps rs :
  forall t db,
    clock_from t rs -> stamps_inv db -> seen_upto t db ->
    stamps_inv (serve_all rs db).
Proof.
  induction rs as [|r rs IH]; intros t db Hclock Hst Hup; [exact Hst|].
  destruct Hclock as [Hle Hclock].
  destruct (serve_stamps db r Hst (seen_upto_le _ _ db Hle Hup)) as [Hst' Hup'].
  exact (IH (request_time r) (serve db r) Hclock Hst' Hup').
Qed.

(** C10: when the clock never goes back from one request to the next, every
    Session record of a state reached from the empty store has a
    [created_at], and it is not after its [last_seen]; a heartbeat served at
    a time not before the [last_seen] of the records preserves this; the
    insert sets both fields to the time of the call, and a later heartbeat
    moves [last_seen] forward and leaves [created_at]. *)
Theorem C10_created_at_not_after_last_seen t0 rs db now body :
  clock_from t0 rs ->
  (forall d, In d (session (serve_all rs empty_db)) ->
     exists c, created_at d = Some c /\ c <= last_seen d)
  /\ (stamps_inv db -> seen_upto now db ->
      stamps_inv (exec (post_heartbeat now body) db)
      /\ seen_upto now (exec (post_heartbeat now body) db))
  /\ (forall vid, unseen vid db ->
      exists d, find_one (by_visitor_id vid)
                  (session (exec (post_heartbeat now (JStr vid)) db)) = Some d
                /\ created_at d = Some now /\ last_seen d = now)
  /\ (forall vid d, find_one (by_visitor_id vid) (session db) = Some d ->
      last_seen d <= now ->
      exists d', find_one (by_visitor_id vid)
                   (session (exec (post_heartbeat now (JStr vid)) db)) = Some d'
                 /\ created_at d' = created_at d /\ last_seen d <= last_seen d').
Proof.
  intros Hclock. split; [|split; [|split]].
  - apply (serve_all_stamps rs t0 empty_db Hclock); intros d [].
  - intros Hst Hup. change (exec (post_heartbeat now body) db) with (serve db (Heartbeat now body)).
    exact (serve_stamps db (Heartbeat now body) Hst Hup).
  - intros vid Hun. apply unseen_find in Hun.
    pose proof (heartbeat_find_same now vid db) as H. rewrite Hun in H.
    eexists. split; [exact H|]. split; reflexivity.
  - intros vid d Hfind Hle.
    pose proof (heartbeat_find_same now vid db) as H. rewrite Hfind in H.
    eexists. split; [exact H|]. split; [reflexivity | exact Hle].
Qed.

Lemma C10_created_at_not_after_last_seen_witness :
  exists c, created_at (mkSession "abc" 25 (Some 10)) = Some c
            /\ c <= last_seen (mkSession "abc" 25 (Some 10)).
Proof.
  assert (Hclock : clock_from 0
            [Heartbeat 10 (JStr "abc"); Heartbeat 10 (JStr "xyz"); Heartbeat 25 (JStr "abc")]).
  { simpl. lia. }
  apply (proj1 (C10_created_at_not_after_last_seen 0 _ empty_db 0 JMissing Hclock)).
  vm_compute. left. reflexivity.
Defined.

(** ** Two heartbeats in progress at once *)

Lemma step_left t u db t' db' :
  running t = true -> task_step t db = (inr t', db') ->
  step ([t; u], db) ([t'; u], db').
Proof. intros Hr Hs. exact (step_task [] t [u] db t' db' Hr Hs). Qed.

Lemma step_right t u db u' db' :
  running u = true -> task_step u db = (inr u', db') ->
  step ([t; u], db) ([t; u'], db').
Proof. intros Hr Hs. exact (step_task [t] u [] db u' db' Hr Hs). Qed.

(** A task that runs alone performs the handler. *)
Lemma task_alone now payload db :
  steps ([AtFind now payload], db)
        ([Finished (mkHeartbeatOut true)], exec (heartbeat now payload) db).
Proof.
  unfold exec. rewrite heartbeat_run. cbn [snd].
  eapply steps_cons; [apply (step_task [] _ [] db); reflexivity|].
  eapply steps_cons; [apply (step_task [] _ [] db); reflexivity|].
  eapply steps_cons; [|apply steps_refl].
  apply (step_task [] _ []); [reflexivity|].
  cbn [task_step]. unfold bind.
  destruct (find_one _ (session db)); reflexivity.
Qed.

(** C8: two first-ever heartbeats of the same new visitor, in progress at
    once: the lookup, the upsert and the increment of a handler are separate
    steps, so both lookups can run before either upsert and both find no
    record; the run that continues from there ends with the counter two
    higher and a single Session record for the visitor, the only record
    added.  A handler that runs alone goes through the same three steps. *)
Theorem C8_concurrent_first_heartbeats_count_twice vid t1 t2 db :
  unseen vid db ->
  let p := mkHeartbeatIn vid in
  let done := Finished (mkHeartbeatOut true) in
  (exists db',
     steps ([AtFind t1 p; AtFind t2 p], db) ([AtUpsert t1 p None; AtUpsert t2 p None], db)
     /\ steps ([AtUpsert t1 p None; AtUpsert t2 p None], db) ([done; done], db')
     /\ counter db' = counter db + 2
     /\ sessions_of vid db' = 1
     /\ List.length (session db') = S (List.length (session db)))
  /\ steps ([AtFind t1 p], db) ([done], exec (heartbeat t1 p) db).
Proof.
  intros Hun p done. split; [|apply task_alone].
  pose proof (proj1 (unseen_find vid db) Hun) as Hnone.
  set (q := by_visitor_id vid).
  set (k := by_key "global"%string).
  set (ss1 := update_one q (set_heartbeat vid t1) (new_session vid t1) (session db)).
  set (ss2 := update_one q (set_heartbeat vid t2) (new_session vid t2) ss1).
  set (st1 := update_one k (inc_total_views 1) (new_sitestat "global" 1 t1) (sitestat db)).
  set (st2 := update_one k (inc_total_views 1) (new_sitestat "global" 1 t2) st1).
  exists (mkDatabase ss2 st2).
  assert (Hq : forall now d, q d = true -> q (set_heartbeat vid now d) = q d).
  { intros now d Hd. now apply by_visitor_id_set. }
  assert (Hins : forall now, q (new_session vid now) = true).
  { intros now. apply String.eqb_refl. }
  split; [|split; [|split; [|split]]].
  - eapply steps_cons.
    { apply (step_left (AtFind t1 p) _ db (AtUpsert t1 p None) db); [reflexivity|].
      cbn [task_step]. unfold bind, session_find_one. cbn [hb_visitor_id p].
      now rewrite Hnone. }
    eapply steps_cons; [|apply steps_refl].
    apply (step_right _ (AtFind t2 p) db (AtUpsert t2 p None) db); [reflexivity|].
    cbn [task_step]. unfold bind, session_find_one. cbn [hb_visitor_id p].
    now rewrite Hnone.
  - eapply steps_cons.
    { apply (step_left (AtUpsert t1 p None) _ db (AtCount t1 p None)
               (mkDatabase ss1 (sitestat db))); reflexivity. }
    eapply steps_cons.
    { apply (step_right _ (AtUpsert t2 p None) _ (AtCount t2 p None)
               (mkDatabase ss2 (sitestat db))); reflexivity. }
    eapply steps_cons.
    { apply (step_left (AtCount t1 p None) _ _ done (mkDatabase ss2 st1)); reflexivity. }
    eapply steps_cons; [|apply steps_refl].
    apply (step_right _ (AtCount t2 p None) _ done (mkDatabase ss2 st2)); reflexivity.
  - unfold st2. rewrite counter_incremented.
    change (stat_total_views (find_one (by_key "global"%string) st1))
      with (counter (mkDatabase ss2 st1)).
    unfold st1. rewrite counter_incremented. fold (counter db). lia.
  - unfold sessions_of. cbn [session]. unfold ss2.
    rewrite count_update_one by (intros d Hd; now apply Hq).
    unfold ss1 at 2. rewrite find_one_update_one;
      [|intros d Hd; now rewrite Hq|apply Hins].
    unfold ss1. rewrite count_update_one by (intros d Hd; now apply Hq).
    fold q in Hnone. rewrite Hnone, Hins.
    fold q. rewrite (count_documents_zero q (session db)); [reflexivity|].
    intros d Hd. apply by_visitor_id_false. now apply Hun.
  - cbn [session]. unfold ss2. rewrite length_update_one.
    unfold ss1 at 2. rewrite find_one_update_one;
      [|intros d Hd; now rewrite Hq|apply Hins].
    unfold ss1. rewrite length_update_one. fold q in Hnone. rewrite Hnone. lia.
Qed.

Lemma C8_concurrent_first_heartbeats_count_twice_witness :
  exists db',
    steps ([AtFind 10 (mkHeartbeatIn "abc"); AtFind 11 (mkHeartbeatIn "abc")], empty_db)
          ([AtUpsert 10 (mkHeartbeatIn "abc") None; AtUpsert 11 (mkHeartbeatIn "abc") None],
           empty_db)
    /\ steps ([AtUpsert 10 (mkHeartbeatIn "abc") None; AtUpsert 11 (mkHeartbeatIn "abc") None],
              empty_db)
             ([Finished (mkHeartbeatOut true); Finished (mkHeartbeatOut true)], db')
    /\ counter db' = counter empty_db + 2
    /\ sessions_of "abc" db' = 1
    /\ List.length (session db') = S (List.length (session empty_db)).
Proof.
  assert (Hun : unseen "abc" empty_db) by (intros d []).
  exact (proj1 (C8_concurrent_first_heartbeats_count_twice "abc" 10 11 empty_db Hun)).
Defined.

(** * Further properties of the presence endpoints *)

Section UpdateFacts.
Context {D : Type}.
Implicit Types (q p : D -> bool) (u : D -> D) (c : list D).

(** Documents that a filter keeps and the update cannot reach. *)
Lemma filter_update_one q p u ins c :
  (forall d, q d = true -> p d = false /\ p (u d) = false) -> p ins = false ->
  filter p (update_one q u ins c) = filter p c.
Proof.
  intros Hu Hins. induction c as [|x c IH]; cbn [update_one filter].
  - now rewrite Hins.
  - destruct (q x) eqn:Hx; cbn [filter].
    + destruct (Hu x Hx) as [-> ->]. reflexivity.
    + now rewrite IH.
Qed.

(** A second update of the same query absorbs the first. *)
Lemma update_one_absorbs q u1 u2 i1 i2 c :
  find_one q c <> None ->
  (forall d, q d = true -> q (u1 d) = true) ->
  (forall d, u2 (u1 d) = u2 d) ->
  update_one q u2 i2 (update_one q u1 i1 c) = update_one q u2 i2 c.
Proof.
  unfold find_one. intros Hfind Hq Hu.
  induction c as [|x c IH]; cbn [update_one find] in *; [contradiction|].
  destruct (q x) eqn:Hx; cbn [update_one].
  - now rewrite (Hq x Hx), Hu.
  - rewrite Hx. f_equal. now apply IH.
Qed.

Lemma update_one_idempotent q u ins c :
  q ins = true -> u ins = ins ->
  (forall d, q d = true -> q (u d) = true) ->
  (forall d, u (u d) = u d) ->
  update_one q u ins (update_one q u ins c) = update_one q u ins c.
Proof.
  intros Hins Hfix Hq Hu.
  induction c as [|x c IH]; cbn [update_one].
  - now rewrite Hins, Hfix.
  - destruct (q x) eqn:Hx; cbn [update_one].
    + now rewrite (Hq x Hx), Hu.
    + rewrite Hx. now f_equal.
Qed.

Lemma count_documents_in p c d :
  In d c -> p d = true -> 1 <= count_documents p c.
Proof.
  intros Hin Hp. apply in_split in Hin. destruct Hin as (c1 & c2 & ->).
  rewrite count_documents_app, count_documents_cons, Hp.
  pose proof (count_documents_nonneg p c1).
  pose proof (count_documents_nonneg p c2). lia.
Qed.

Lemma count_documents_le p1 p2 c :
  (forall d, In d c -> p1 d = true -> p2 d = true) ->
  count_documents p1 c <= count_documents p2 c.
Proof.
  induction c as [|x c IH]; intros H; [reflexivity|].
  rewrite !count_documents_cons.
  assert (IH' := IH (fun d Hd => H d (or_intror Hd))).
  destruct (p1 x) eqn:H1.
  - rewrite (H x (or_introl eq_refl) H1). lia.
  - destruct (p2 x); lia.
Qed.

Lemma count_documents_length p c :
  count_documents p c <= Z.of_nat (List.length c).
Proof.
  unfold count_documents. pose proof (filter_length_le p c). lia.
Qed.

End UpdateFacts.

Lemma set_heartbeat_twice vid t1 t2 d :
  set_heartbeat vid t2 (set_heartbeat vid t1 d) = set_heartbeat vid t2 d.
Proof. reflexivity. Qed.

Lemma by_visitor_id_kept vid now d :
  by_visitor_id vid d = true -> by_visitor_id vid (set_heartbeat vid now d) = true.
Proof. intros H. now rewrite by_visitor_id_set. Qed.

Lemma exec_heartbeat now vid db :
  exec (post_heartbeat now (JStr vid)) db =
  mkDatabase
    (update_one (by_visitor_id vid) (set_heartbeat vid now) (new_session vid now)
       (session db))
    (match find_one (by_visitor_id vid) (session db) with
     | None => update_one (by_key "global"%string) (inc_total_views 1)
                 (new_sitestat "global"%string 1 now) (sitestat db)
     | Some _ => sitestat db
     end).
Proof. unfold exec. now rewrite post_heartbeat_str, heartbeat_run. Qed.

Lemma post_heartbeat_exec_eq now vid db :
  exec (post_heartbeat now (JStr vid)) db = exec (heartbeat now (mkHeartbeatIn vid)) db.
Proof. reflexivity. Qed.

(** X1: a heartbeat touches the record of its own visitor and the counter
    document only: the records of all other visitors stay as they are, in
    the same order, every other visitor is found as before, and so are the
    sitestat documents with another key. *)
Theorem heartbeat_leaves_other_documents now vid db :
  let other := fun d => negb (by_visitor_id vid d) in
  let db' := exec (post_heartbeat now (JStr vid)) db in
  filter other (session db') = filter other (session db)
  /\ (forall v, v <> vid ->
        find_one (by_visitor_id v) (session db') = find_one (by_visitor_id v) (session db))
  /\ filter (fun d => negb (by_key "global"%string d)) (sitestat db') =
     filter (fun d => negb (by_key "global"%string d)) (sitestat db).
Proof.
  intros other db'. unfold db'. rewrite exec_heartbeat. cbn [session sitestat].
  split; [|split].
  - apply filter_update_one.
    + intros d Hd. unfold other. rewrite (by_visitor_id_kept vid now d Hd), Hd. now split.
    + unfold other, by_visitor_id. cbn [visitor_id new_session]. now rewrite String.eqb_refl.
  - intros v Hne. apply find_one_update_other.
    + intros d Hd. rewrite (by_visitor_id_set _ _ _ _ Hd).
      apply by_visitor_id_true in Hd. unfold by_visitor_id. rewrite Hd.
      assert (String.eqb vid v = false) as -> by (apply String.eqb_neq; congruence).
      now split.
    + apply String.eqb_neq. cbn. congruence.
  - destruct (find_one _ (session db)); [reflexivity|].
    apply filter_update_one.
    + intros d Hd. rewrite by_key_inc, Hd. now split.
    + reflexivity.
Qed.

Lemma existsb_visitor vid c :
  existsb (fun s => String.eqb s vid) (map visitor_id c) =
  match find_one (by_visitor_id vid) c with Some _ => true | None => false end.
Proof.
  unfold find_one. induction c as [|x c IH]; [reflexivity|].
  cbn [map existsb find]. unfold by_visitor_id at 1.
  destruct (String.eqb (visitor_id x) vid); [reflexivity | exact IH].
Qed.

Lemma heartbeat_visitor_ids now vid db :
  map visitor_id (session (exec (post_heartbeat now (JStr vid)) db)) =
  if existsb (fun s => String.eqb s vid) (map visitor_id (session db))
  then map visitor_id (session db)
  else map visitor_id (session db) ++ [vid].
Proof.
  rewrite existsb_visitor. unfold exec. rewrite post_heartbeat_str.
  destruct (find_one (by_visitor_id vid) (session db)) as [d|] eqn:Hfind.
  - destruct (heartbeat_session_hit now vid db d Hfind) as (c1 & c2 & E1 & E2 & _).
    unfold exec in E2. rewrite E2, E1, !map_app. reflexivity.
  - pose proof (heartbeat_session_miss now vid db Hfind) as E. unfold exec in E.
    rewrite E, map_app. reflexivity.
Qed.

Lemma serve_not_heartbeat db r : heartbeat_visitor r = None -> serve db r = db.
Proof.
  destruct r as [now body|now w]; [|intros _; apply serve_get_stats].
  destruct body; try discriminate; intros _; apply serve_invalid; intros s; discriminate.
Qed.

Lemma serve_heartbeat db r vid :
  heartbeat_visitor r = Some vid ->
  serve db r = exec (post_heartbeat (request_time r) (JStr vid)) db.
Proof.
  destruct r as [now body|now w]; [|discriminate].
  destruct body; try discriminate. intros [= ->]. reflexivity.
Qed.

(** X2: served one after the other from any database, requests leave the
    Session records of the visitors in the order of their first heartbeat,
    one record for each new visitor; from the empty store, the counter is
    the number of distinct visitors that sent a heartbeat. *)
Theorem sessions_follow_first_heartbeats rs db :
  map visitor_id (session (serve_all rs db)) =
    first_seen (map visitor_id (session db)) rs
  /\ counter (serve_all rs empty_db) = Z.of_nat (List.length (first_seen [] rs))
  /\ NoDup (first_seen [] rs).
Proof.
  assert (H : forall l d,
    map visitor_id (session (serve_all l d)) = first_seen (map visitor_id (session d)) l).
  { induction l as [|r l IH]; intros d; [reflexivity|].
    cbn [first_seen]. change (serve_all (r :: l) d) with (serve_all l (serve d r)).
    rewrite IH. destruct (heartbeat_visitor r) as [vid|] eqn:Hr.
    - rewrite (serve_heartbeat d r vid Hr), heartbeat_visitor_ids.
      destruct (existsb _ _); reflexivity.
    - now rewrite (serve_not_heartbeat d r Hr). }
  split; [apply H|].
  pose proof (serve_all_inv rs empty_db empty_inv) as [_ _ Hnodup Hcount].
  rewrite (H rs empty_db) in Hnodup. cbn [session empty_db map] in Hnodup.
  split; [|exact Hnodup].
  rewrite Hcount. rewrite <- (length_map visitor_id), (H rs empty_db). reflexivity.
Qed.

Lemma last_seen_written vid rs db :
  option_map last_seen (find_one (by_visitor_id vid) (session (serve_all rs db))) =
  last_heartbeat vid (option_map last_seen (find_one (by_visitor_id vid) (session db))) rs.
Proof.
  revert db. induction rs as [|r rs IH]; intros db; [reflexivity|].
  change (serve_all (r :: rs) db) with (serve_all rs (serve db r)).
  rewrite IH. cbn [last_heartbeat].
  destruct (heartbeat_visitor r) as [v|] eqn:Hr.
  - rewrite (serve_heartbeat db r v Hr), post_heartbeat_exec_eq.
    destruct (String.eqb_spec v vid) as [->|Hne].
    + rewrite heartbeat_find_same.
      destruct (find_one _ (session db)); reflexivity.
    + now rewrite (heartbeat_find_other _ v vid db Hne).
  - now rewrite (serve_not_heartbeat db r Hr).
Qed.

(** X3: after requests served one after the other, the [last_seen] that the
    store keeps in the record found for a visitor is the time of its last
    heartbeat among them, cut to the millisecond; when it sent none, the
    stored value is as it was, and an absent record is still absent. *)
Theorem last_seen_is_last_heartbeat vid rs db :
  option_map (fun d => bson_datetime (last_seen d))
    (find_one (by_visitor_id vid) (session (serve_all rs db))) =
  option_map bson_datetime
    (last_heartbeat vid
       (option_map last_seen (find_one (by_visitor_id vid) (session db))) rs).
Proof.
  rewrite <- (last_seen_written vid rs db).
  destruct (find_one _ (session (serve_all rs db))); reflexivity.
Qed.

(** X4: for two windows whose cutoffs are representable, the larger window
    never reports fewer active visitors, and no window reports more than
    there are Session records. *)
Theorem active_grows_with_window now w1 w2 db :
  valid now -> cutoff_ok now w1 -> cutoff_ok now w2 -> w1 <= w2 ->
  exists a1 a2,
    active_at now w1 db = Some a1 /\ active_at now w2 db = Some a2
    /\ 0 <= a1 <= a2 /\ a2 <= Z.of_nat (List.length (session db)).
Proof.
  intros Hn H1 H2 Hle.
  rewrite (active_at_run now w1 db Hn H1), (active_at_run now w2 db Hn H2).
  do 2 eexists. split; [reflexivity|]. split; [reflexivity|].
  split; [split|].
  - apply count_documents_nonneg.
  - apply count_documents_le. intros d _. unfold last_seen_gte.
    rewrite !Z.leb_le. intros H.
    assert (bson_datetime (now - w2 * US_PER_SECOND)
            <= bson_datetime (now - w1 * US_PER_SECOND)); [|lia].
    apply bson_datetime_mono. unfold US_PER_SECOND. lia.
  - apply count_documents_length.
Qed.

Lemma active_grows_with_window_witness :
  exists a1 a2,
    active_at 63900000000000000 60
      (mkDatabase [mkSession "abc" 63899999900000000 None;
                   mkSession "xyz" 63899999990000000 None] []) = Some a1
    /\ active_at 63900000000000000 120
         (mkDatabase [mkSession "abc" 63899999900000000 None;
                      mkSession "xyz" 63899999990000000 None] []) = Some a2
    /\ 0 <= a1 <= a2 /\ a2 <= Z.of_nat 2.
Proof.
  assert (Hn : valid 63900000000000000) by in_range.
  assert (H1 : cutoff_ok 63900000000000000 60) by in_range.
  assert (H2 : cutoff_ok 63900000000000000 120) by in_range.
  assert (Hle : 60 <= 120) by lia.
  exact (active_grows_with_window 63900000000000000 60 120
           (mkDatabase [mkSession "abc" 63899999900000000 None;
                        mkSession "xyz" 63899999990000000 None] []) Hn H1 H2 Hle).
Defined.

(** X5: statistics after a heartbeat, times compared as the store keeps
    them, in whole milliseconds.  A visitor whose heartbeat was served at a
    time not before the cutoff is counted: [active] is at least 1.  For a
    visitor without a Session record the heartbeat adds one to [total], and
    one to [active] exactly when its time is not before the cutoff. *)
Theorem stats_after_heartbeat t now w vid db :
  valid now -> cutoff_ok now w ->
  let since := now - w * US_PER_SECOND in
  let db' := exec (post_heartbeat t (JStr vid)) db in
  (bson_datetime since <= bson_datetime t ->
   exists a, active_at now w db' = Some a /\ 1 <= a)
  /\ (unseen vid db ->
      outcome (get_stats now (Some w)) db' =
      inr (mkStats
             (count_documents (last_seen_gte since) (session db)
              + (if bson_datetime since <=? bson_datetime t then 1 else 0))
             (counter db + 1))).
Proof.
  intros Hn Hc since db'. split.
  - intros Hle. rewrite (active_at_run now w db' Hn Hc). eexists. split; [reflexivity|].
    pose proof (heartbeat_find_same t vid db) as Hfind.
    apply find_one_some in Hfind. destruct Hfind as [Hin _].
    apply (count_documents_in _ _ _ Hin). unfold last_seen_gte. fold since.
    destruct (find_one _ (session db)); apply Z.leb_le; exact Hle.
  - intros Hun. apply unseen_find in Hun.
    unfold outcome. rewrite (get_stats_run now w db' Hn Hc). cbn [fst]. fold since.
    unfold db'. rewrite post_heartbeat_exec_eq.
    rewrite (heartbeat_session_miss t vid db Hun), heartbeat_counter.
    cbn [hb_visitor_id]. rewrite Hun, count_documents_app, count_documents_cons.
    unfold last_seen_gte at 2. cbn [last_seen new_session].
    do 2 f_equal. change (count_documents (last_seen_gte since) []) with 0. lia.
Qed.

Lemma stats_after_heartbeat_witness :
  outcome (get_stats 63900000000000000 (Some 120))
    (exec (post_heartbeat 63899999990000000 (JStr "abc"))
       (mkDatabase [mkSession "xyz" 5 None] [mkSitestat "global" (Some 1) None]))
  = inr (mkStats 1 2).
Proof.
  assert (Hn : valid 63900000000000000) by in_range.
  assert (Hc : cutoff_ok 63900000000000000 120) by in_range.
  assert (Hun : unseen "abc"
            (mkDatabase [mkSession "xyz" 5 None] [mkSitestat "global" (Some 1) None])).
  { intros d [<-|[]]. discriminate. }
  exact (proj2 (stats_after_heartbeat 63899999990000000 63900000000000000 120 "abc"
                  _ Hn Hc) Hun).
Defined.

(** X6: for a visitor that has a Session record, of two heartbeats in a row
    only the second matters: the database is the one the second alone
    leaves.  A heartbeat repeated with the same time changes nothing more,
    whatever the database. *)
Theorem heartbeat_last_write_wins t1 t2 vid db :
  has_session vid db ->
  exec (post_heartbeat t2 (JStr vid)) (exec (post_heartbeat t1 (JStr vid)) db) =
    exec (post_heartbeat t2 (JStr vid)) db
  /\ (forall db0,
        exec (post_heartbeat t1 (JStr vid)) (exec (post_heartbeat t1 (JStr vid)) db0) =
        exec (post_heartbeat t1 (JStr vid)) db0).
Proof.
  intros Hseen. unfold has_session in Hseen.
  assert (Hfound : forall t d0,
    find_one (by_visitor_id vid)
      (update_one (by_visitor_id vid) (set_heartbeat vid t) (new_session vid t)
         (session d0)) <> None).
  { intros t d0. rewrite find_one_update_one; [discriminate| |apply String.eqb_refl].
    intros d Hd. now apply by_visitor_id_kept. }
  split.
  - rewrite (exec_heartbeat t1), (exec_heartbeat t2 vid db), exec_heartbeat.
    cbn [session sitestat]. f_equal.
    + apply update_one_absorbs; [exact Hseen | | reflexivity].
      intros d Hd. now apply by_visitor_id_kept.
    + specialize (Hfound t1 db).
      destruct (find_one _ (update_one _ _ _ _)); [|contradiction].
      destruct (find_one _ (session db)); [reflexivity | contradiction].
  - intros db0. rewrite (exec_heartbeat t1 vid db0), exec_heartbeat.
    cbn [session sitestat]. f_equal.
    + apply update_one_idempotent; [apply String.eqb_refl | reflexivity | | reflexivity].
      intros d Hd. now apply by_visitor_id_kept.
    + specialize (Hfound t1 db0).
      destruct (find_one _ (update_one _ _ _ _)); [reflexivity | contradiction].
Qed.

Lemma heartbeat_last_write_wins_witness :
  exec (post_heartbeat 30 (JStr "abc"))
    (exec (post_heartbeat 20 (JStr "abc"))
       (mkDatabase [mkSession "abc" 10 (Some 10)] [mkSitestat "global" (Some 1) (Some 10)]))
  = exec (post_heartbeat 30 (JStr "abc"))
      (mkDatabase [mkSession "abc" 10 (Some 10)] [mkSitestat "global" (Some 1) (Some 10)]).
Proof.
  assert (Hseen : has_session "abc"
            (mkDatabase [mkSession "abc" 10 (Some 10)]
                        [mkSitestat "global" (Some 1) (Some 10)])) by discriminate.
  exact (proj1 (heartbeat_last_write_wins 20 30 "abc" _ Hseen)).
Defined.

(** ** Interleaved heartbeats: what a race cannot do *)

Lemma pending_app ts1 ts2 : pending (ts1 ++ ts2) = pending ts1 + pending ts2.
Proof. unfold pending. rewrite filter_app, length_app. lia. Qed.

Lemma pending_cons t ts :
  pending (t :: ts) = (if owes_increment t then 1 else 0) + pending ts.
Proof.
  unfold pending. cbn [filter]. destruct (owes_increment t); cbn [List.length]; lia.
Qed.

Lemma pending_finished ts :
  Forall (fun t => running t = false) ts -> pending ts = 0.
Proof.
  induction 1 as [|t ts Ht _ IH]; [reflexivity|].
  rewrite pending_cons, IH. destruct t as [| | |r]; try discriminate. reflexivity.
Qed.

Lemma upsert_visitor_ids now vid c :
  map visitor_id
    (update_one (by_visitor_id vid) (set_heartbeat vid now) (new_session vid now) c) =
  if existsb (fun s => String.eqb s vid) (map visitor_id c)
  then map visitor_id c
  else map visitor_id c ++ [vid].
Proof.
  induction c as [|x c IH]; [reflexivity|].
  cbn [update_one map existsb]. unfold by_visitor_id at 1.
  destruct (String.eqb_spec (visitor_id x) vid) as [E|E]; cbn [orb map].
  - now rewrite E.
  - rewrite IH. destruct (existsb _ _); reflexivity.
Qed.

Lemma upsert_nodup now vid c :
  NoDup (map visitor_id c) ->
  NoDup (map visitor_id
           (update_one (by_visitor_id vid) (set_heartbeat vid now) (new_session vid now) c)).
Proof.
  intros H. rewrite upsert_visitor_ids.
  destruct (existsb _ _) eqn:E; [exact H|].
  apply NoDup_app; [exact H | repeat constructor; intros [] |].
  intros x Hx [<-|[]].
  assert (existsb (fun s => String.eqb s vid) (map visitor_id c) = true) as E'.
  { apply existsb_exists. exists vid. split; [exact Hx | apply String.eqb_refl]. }
  congruence.
Qed.

Lemma upsert_has_session now vid v db st' :
  has_session v db ->
  has_session v
    (mkDatabase
       (update_one (by_visitor_id vid) (set_heartbeat vid now) (new_session vid now)
          (session db))
       st').
Proof.
  unfold has_session. cbn [session]. intros H.
  destruct (String.eqb_spec vid v) as [->|Hne].
  - rewrite find_one_update_one; [discriminate| |apply String.eqb_refl].
    intros d Hd. now apply by_visitor_id_kept.
  - rewrite find_one_update_other; [exact H| |].
    + intros d Hd. rewrite (by_visitor_id_set _ _ _ _ Hd).
      apply by_visitor_id_true in Hd. unfold by_visitor_id. rewrite Hd.
      split; now apply String.eqb_neq.
    + now apply String.eqb_neq.
Qed.

Lemma task_ok_mono db db' t :
  (forall v, has_session v db -> has_session v db') ->
  task_ok db t -> task_ok db' t.
Proof.
  intros H. destruct t as [now p|now p [d|]|now p prev|r]; cbn [task_ok]; auto.
Qed.

(** Every step of an interleaved execution keeps the invariant and never
    lowers the counter. *)
Lemma step_inv c c' :
  step c c' -> config_inv c -> config_inv c' /\ counter (snd c) <= counter (snd c').
Proof.
  intros Hstep [Htasks Hnodup Hcover]. destruct Hstep as [pre t post db t' db' Hrun Hstep].
  cbn [fst snd] in *.
  apply Forall_app in Htasks. destruct Htasks as [Hpre Htasks].
  apply Forall_cons_iff in Htasks. destruct Htasks as [Ht Hpost].
  rewrite pending_app, pending_cons in Hcover.
  assert (Hmono : (forall v, has_session v db -> has_session v db') ->
                  task_ok db' t' ->
                  Forall (task_ok db') (pre ++ t' :: post)).
  { intros Hv Ht'. apply Forall_app. split; [|constructor; [exact Ht'|]].
    - eapply Forall_impl; [|exact Hpre]. intros a. now apply task_ok_mono.
    - eapply Forall_impl; [|exact Hpost]. intros a. now apply task_ok_mono. }
  destruct t as [now p|now p prev|now p prev|r]; [| | |discriminate].
  - (* the lookup *)
    cbn in Hstep. injection Hstep as <- <-.
    split; [|lia]. split; cbn [fst snd].
    + apply Hmono; [auto|]. cbn [task_ok].
      destruct (find_one _ (session db)) eqn:E; [|exact I].
      unfold has_session. now rewrite E.
    + exact Hnodup.
    + rewrite pending_app, pending_cons.
      cbn [owes_increment] in *. exact Hcover.
  - (* the upsert *)
    cbn in Hstep. injection Hstep as <- <-.
    split; [|unfold counter; cbn [sitestat]; lia]. split; cbn [fst snd].
    + apply Hmono.
      * intros v Hv. now apply upsert_has_session.
      * cbn [task_ok]. unfold has_session. cbn [session].
        rewrite find_one_update_one; [discriminate| |apply String.eqb_refl].
        intros d Hd. now apply by_visitor_id_kept.
    + cbn [session]. now apply upsert_nodup.
    + rewrite pending_app, pending_cons. cbn [session owes_increment] in *.
      rewrite length_update_one.
      change (counter (mkDatabase _ (sitestat db))) with (counter db).
      destruct (find_one _ (session db)) eqn:E.
      * destruct prev; lia.
      * destruct prev as [d|]; [|lia].
        cbn [task_ok] in Ht. unfold has_session in Ht. contradiction.
  - (* the increment *)
    destruct prev as [d|].
    + cbn in Hstep. injection Hstep as <- <-.
      split; [|lia]. split; cbn [fst snd].
      * apply Hmono; [auto | exact I].
      * exact Hnodup.
      * rewrite pending_app, pending_cons. cbn [owes_increment] in *. exact Hcover.
    + cbn in Hstep. injection Hstep as <- <-.
      rewrite counter_incremented. fold (counter db).
      split; [|cbn [snd]; lia]. split; cbn [fst snd].
      * apply Hmono; [|exact I]. intros v Hv. exact Hv.
      * exact Hnodup.
      * rewrite pending_app, pending_cons, counter_incremented. fold (counter db).
        cbn [owes_increment session] in *. lia.
Qed.

Lemma steps_inv c c' :
  steps c c' -> config_inv c -> config_inv c' /\ counter (snd c) <= counter (snd c').
Proof.
  induction 1 as [c|c1 c2 c3 H12 _ IH]; intros Hinv; [split; [exact Hinv | lia]|].
  destruct (step_inv c1 c2 H12 Hinv) as [H2 Hle].
  destruct (IH H2) as [H3 Hle']. split; [exact H3 | lia].
Qed.

Lemma interleaving_never_undercounts_aux ts0 db0 ts db :
  Forall (fun t => exists now payload, t = AtFind now payload) ts0 ->
  counter_inv db0 ->
  steps (ts0, db0) (ts, db) ->
  NoDup (map visitor_id (session db))
  /\ counter db0 <= counter db
  /\ Z.of_nat (List.length (session db)) <= counter db + pending ts.
Proof.
  intros Hfind [_ _ Hnodup Hcount] Hsteps.
  assert (Hinv : config_inv (ts0, db0)).
  { split; cbn [fst snd].
    - eapply Forall_impl; [|exact Hfind]. intros t (now & p & ->). exact I.
    - exact Hnodup.
    - rewrite Hcount. unfold pending. lia. }
  destruct (steps_inv _ _ Hsteps Hinv) as [[_ Hn Hc] Hle]. cbn [fst snd] in *.
  repeat split; assumption.
Qed.

(** X7: heartbeats in progress at once, in any number and interleaved in
    any way, started on a database in which the counter is the number of
    Session records: there is never a second Session record for a visitor,
    the counter never goes down, and it is never behind: once all handlers
    have finished it is at least the number of Session records. *)
Theorem interleaving_never_undercounts ts0 db0 ts db :
  Forall (fun t => exists now payload, t = AtFind now payload) ts0 ->
  counter_inv db0 ->
  steps (ts0, db0) (ts, db) ->
  NoDup (map visitor_id (session db))
  /\ counter db0 <= counter db
  /\ Z.of_nat (List.length (session db)) <= counter db + pending ts
  /\ (Forall (fun t => running t = false) ts ->
      Z.of_nat (List.length (session db)) <= counter db).
Proof.
  intros Hfind Hinv Hsteps.
  destruct (interleaving_never_undercounts_aux ts0 db0 ts db Hfind Hinv Hsteps)
    as (Hn & Hle & Hc).
  repeat split; try assumption.
  intros Hdone. rewrite (pending_finished ts Hdone) in Hc. lia.
Qed.

(** The race of the examples, step by step: both lookups, then both
    upserts, then both increments. *)
Lemma sample_race_runs :
  steps (sample_race, sample_store)
        ([Finished (mkHeartbeatOut true); Finished (mkHeartbeatOut true)], sample_race_end).
Proof.
  unfold sample_race.
  eapply steps_cons; [apply step_left; reflexivity|].
  eapply steps_cons; [apply step_right; reflexivity|].
  eapply steps_cons; [apply step_left; reflexivity|].
  eapply steps_cons; [apply step_right; reflexivity|].
  eapply steps_cons; [apply step_left; reflexivity|].
  eapply steps_cons; [apply step_right; reflexivity|].
  apply steps_refl.
Qed.

Lemma sample_race_starts :
  Forall (fun t => exists now payload, t = AtFind now payload) sample_race.
Proof. repeat constructor; eexists; eexists; reflexivity. Qed.

Lemma sample_race_ends :
  Forall (fun t => running t = false)
    [Finished (mkHeartbeatOut true); Finished (mkHeartbeatOut true)].
Proof. repeat constructor. Qed.

Lemma sample_store_inv : counter_inv sample_store.
Proof.
  exact (serve_all_inv [Heartbeat 63899999000000000 (JStr "xyz")] empty_db empty_inv).
Qed.

Lemma interleaving_never_undercounts_witness :
  NoDup (map visitor_id (session sample_race_end))
  /\ counter sample_store <= counter sample_race_end
  /\ Z.of_nat (List.length (session sample_race_end)) <= counter sample_race_end.
Proof.
  destruct (interleaving_never_undercounts sample_race sample_store _ sample_race_end
              sample_race_starts sample_store_inv sample_race_runs)
    as (H1 & H2 & _ & H4).
  split; [exact H1|]. split; [exact H2 | exact (H4 sample_race_ends)].
Defined.

(** * The blog endpoints *)

Lemma read_unary_unary n : read_unary (unary n) = Some n.
Proof.
  induction n as [|n IH]; [reflexivity|]. cbn. now rewrite IH.
Qed.

#[local] Instance unary_laws : ObjectIdLaws unary_codec.
Proof.
  split.
  - intros a b. apply Nat.eqb_eq.
  - apply read_unary_unary.
Qed.

Section BlogFacts.
Context {codec : ObjectIdCodec} {laws : ObjectIdLaws codec}.
Implicit Types (c : list BlogDoc) (d : BlogDoc) (oid : ObjectId).

Lemma by_id_true oid d : by_id oid d = true <-> _id d = oid.
Proof. unfold by_id. apply oid_eqb_eq. Qed.

Lemma by_id_refl d : by_id (_id d) d = true.
Proof. now apply by_id_true. Qed.

Lemma existsb_by_id oid c :
  existsb (by_id oid) c = false <-> forall d, In d c -> _id d <> oid.
Proof.
  split.
  - intros H d Hd E. assert (existsb (by_id oid) c = true); [|congruence].
    apply existsb_exists. exists d. split; [exact Hd | now apply by_id_true].
  - intros H. destruct (existsb (by_id oid) c) eqn:E; [|reflexivity].
    apply existsb_exists in E. destruct E as (d & Hd & Hq).
    apply by_id_true in Hq. now elim (H d Hd).
Qed.

Lemma find_one_fresh oid c d :
  (forall x, In x c -> _id x <> oid) -> _id d = oid ->
  find_one (by_id oid) (c ++ [d]) = Some d.
Proof.
  intros Hfresh Hd. unfold find_one. induction c as [|x c IH]; cbn [app find].
  - assert (by_id oid d = true) as -> by now apply by_id_true. reflexivity.
  - destruct (by_id oid x) eqn:Hx.
    + apply by_id_true in Hx. now elim (Hfresh x (or_introl eq_refl)).
    + apply IH. intros y Hy. apply Hfresh. now right.
Qed.

Lemma create_blog_fresh oid now1 now2 now3 post c :
  (forall d, In d c -> _id d <> oid) ->
  create_blog oid now1 now2 now3 post c =
  (inr (mkBlogOut (oid_str oid) (title post) (content post) (author post) (tags post)
          (cover_image post)
          (Some (bson_datetime
                   (match published_at post with Some t => t | None => now1 end)))),
   c ++ [mkBlogDoc oid (Some (title post)) (Some (content post)) (Some (author post))
           (Some (tags post)) (cover_image post)
           (Some (match published_at post with Some t => t | None => now1 end))
           (Some now2) (Some now3)]).
Proof.
  intros Hfresh. unfold create_blog, insert_one. cbn [_id].
  rewrite (proj2 (existsb_by_id oid c) Hfresh).
  rewrite find_one_fresh; [reflexivity | exact Hfresh | reflexivity].
Qed.

Lemma create_blog_taken oid now1 now2 now3 post c :
  ~ (forall d, In d c -> _id d <> oid) ->
  create_blog oid now1 now2 now3 post c = (inl DuplicateKeyError, c).
Proof.
  intros H. unfold create_blog, insert_one. cbn [_id].
  destruct (existsb (by_id oid) c) eqn:E; [reflexivity|].
  elim H. now apply existsb_by_id.
Qed.

(** X8: [get_blog] never changes the collection; an id that is not an
    ObjectId is answered 400 "Invalid blog id", an ObjectId that no document
    has is answered 404 "Not found", and a post that is returned is the
    serialisation of a stored document with that ObjectId, its [id] the
    string of the ObjectId. *)
Theorem get_blog_answers post_id c :
  snd (get_blog post_id c) = c
  /\ (oid_parse post_id = None ->
      fst (get_blog post_id c) = inl (HTTPException 400 "Invalid blog id"))
  /\ (forall oid, oid_parse post_id = Some oid ->
      (forall d, In d c -> _id d <> oid) ->
      fst (get_blog post_id c) = inl (HTTPException 404 "Not found"))
  /\ (forall out, fst (get_blog post_id c) = inr out ->
      exists oid d, oid_parse post_id = Some oid /\ In d c /\ _id d = oid
                    /\ serialize_blog d = inr out /\ out_id out = oid_str oid).
Proof.
  unfold get_blog. split; [|split; [|split]].
  - destruct (oid_parse post_id) as [oid|]; [|reflexivity].
    destruct (find_one (by_id oid) c); reflexivity.
  - now intros ->.
  - intros oid -> Hnone.
    assert (find_one (by_id oid) c = None) as ->; [|reflexivity].
    apply find_one_none. intros d Hd.
    destruct (by_id oid d) eqn:E; [|reflexivity].
    apply by_id_true in E. now elim (Hnone d Hd).
  - intros out. destruct (oid_parse post_id) as [oid|]; [|discriminate].
    destruct (find_one (by_id oid) c) as [d|] eqn:Hfind; [|discriminate].
    cbn [fst]. intros Hout. apply find_one_some in Hfind. destruct Hfind as [Hin Hq].
    apply by_id_true in Hq. exists oid, d. repeat split; try assumption.
    unfold serialize_blog in Hout.
    destruct (doc_title d), (doc_content d), (doc_author d); try discriminate.
    injection Hout as <-. cbn [out_id]. now rewrite Hq.
Qed.

(** X9: [create_blog] with an ObjectId that no stored document has appends
    one document and returns the post with the fields of the request, with
    [published_at] the requested time or else the time of the call, as the
    store keeps it: cut to the millisecond; the new document carries
    [created_at] and [updated_at] of their own clock reads, kept the same
    way; asking [get_blog] for the returned [id] gives the same post again. *)
Theorem create_blog_then_get_blog oid now1 now2 now3 post c :
  (forall d, In d c -> _id d <> oid) ->
  let out :=
    mkBlogOut (oid_str oid) (title post) (content post) (author post) (tags post)
      (cover_image post)
      (Some (bson_datetime
               (match published_at post with Some t => t | None => now1 end))) in
  let r := create_blog oid now1 now2 now3 post c in
  fst r = inr out
  /\ (exists d, snd r = c ++ [d] /\ _id d = oid
                /\ option_map bson_datetime (doc_created_at d) = Some (bson_datetime now2)
                /\ option_map bson_datetime (doc_updated_at d) = Some (bson_datetime now3))
  /\ get_blog (out_id out) (snd r) = (inr out, snd r).
Proof.
  intros Hfresh out r. unfold r. rewrite (create_blog_fresh _ _ _ _ _ _ Hfresh).
  cbn [fst snd]. split; [reflexivity|]. split.
  - eexists. split; [reflexivity|]. repeat split.
  - unfold get_blog. cbn [out_id out]. rewrite oid_parse_str.
    rewrite find_one_fresh; [reflexivity | exact Hfresh | reflexivity].
Qed.

Lemma created_cases c oid now1 now2 now3 post :
  snd (create_blog oid now1 now2 now3 post c) = c
  \/ (forall d, In d c -> _id d <> oid)
     /\ exists d, snd (create_blog oid now1 now2 now3 post c) = c ++ [d]
                  /\ _id d = oid
                  /\ serialize_blog d = fst (create_blog oid now1 now2 now3 post c)
                  /\ exists out, serialize_blog d = inr out.
Proof.
  destruct (existsb (by_id oid) c) eqn:E.
  - left. unfold create_blog, insert_one. cbn [_id]. now rewrite E.
  - right. pose proof (proj1 (existsb_by_id oid c) E) as Hfresh.
    split; [exact Hfresh|].
    rewrite (create_blog_fresh _ _ _ _ _ _ Hfresh). cbn [fst snd].
    eexists. split; [reflexivity|]. repeat split. eexists. reflexivity.
Qed.

Lemma created_collection_is_served_aux c :
  created c ->
  NoDup (map _id c)
  /\ forall d, In d c -> exists out, serialize_blog d = inr out.
Proof.
  intros Hc. induction Hc as [|c oid now1 now2 now3 post _ [IHn IHs]].
  - split; [constructor | intros d []].
  - destruct (created_cases c oid now1 now2 now3 post)
      as [->|(Hfresh & d & -> & Hid & _ & Hser)]; [now split|].
    split.
    + rewrite map_app. apply NoDup_app; [exact IHn | repeat constructor; intros [] |].
      intros x Hx [<-|[]]. apply in_map_iff in Hx. destruct Hx as (y & Hy & Hin).
      apply (Hfresh y Hin). congruence.
    + intros x Hx. apply in_app_or in Hx. destruct Hx as [Hx|[<-|[]]]; auto.
Qed.

(** X10: in a collection that [create_blog] alone has built, no two
    documents share an ObjectId and every document serialises; so [get_blog]
    answers any id with 400, with 404 or with a post, never with a server
    error. *)
Theorem created_collection_is_served c post_id :
  created c ->
  NoDup (map _id c)
  /\ (forall d, In d c -> exists out, serialize_blog d = inr out)
  /\ (fst (get_blog post_id c) = inl (HTTPException 400 "Invalid blog id")
      \/ fst (get_blog post_id c) = inl (HTTPException 404 "Not found")
      \/ exists out, fst (get_blog post_id c) = inr out).
Proof.
  intros Hc. destruct (created_collection_is_served_aux c Hc) as [Hn Hs]. split; [exact Hn|]. split; [exact Hs|].
  unfold get_blog. destruct (oid_parse post_id) as [oid|]; [|now left].
  destruct (find_one (by_id oid) c) as [d|] eqn:Hfind; [|right; now left].
  right. right. apply find_one_some in Hfind. destruct Hfind as [Hin _].
  exact (Hs d Hin).
Qed.

End BlogFacts.

Lemma get_blog_answers_witness :
  fst (get_blog "not an id" []) = inl (HTTPException 400 "Invalid blog id")
  /\ fst (get_blog "xxx" []) = inl (HTTPException 404 "Not found").
Proof.
  destruct (get_blog_answers (laws := unary_laws) "not an id" []) as (_ & H400 & _).
  destruct (get_blog_answers (laws := unary_laws) "xxx" []) as (_ & _ & H404 & _).
  split; [exact (H400 eq_refl) | exact (H404 3%nat eq_refl (fun d H => False_ind _ H))].
Defined.

Lemma create_blog_then_get_blog_witness :
  get_blog "xx"
    (snd (create_blog 2%nat 10 11 12
            (mkBlogpost "Title" "Body" "Ann" ["news"%string] None
               (Some 63900000000000123)) []))
  = (inr (mkBlogOut "xx" "Title" "Body" "Ann" ["news"%string] None
            (Some 63900000000000000)),
     snd (create_blog 2%nat 10 11 12
            (mkBlogpost "Title" "Body" "Ann" ["news"%string] None
               (Some 63900000000000123)) [])).
Proof.
  exact (proj2 (proj2 (create_blog_then_get_blog (laws := unary_laws) 2%nat 10 11 12
           (mkBlogpost "Title" "Body" "Ann" ["news"%string] None
              (Some 63900000000000123)) []
           (fun d H => False_ind _ H)))).
Defined.

Lemma created_collection_is_served_witness :
  NoDup (map _id
           (snd (create_blog 2%nat 10 11 12
                   (mkBlogpost "Title" "Body" "Ann" [] None None) []))).
Proof.
  exact (proj1 (created_collection_is_served (laws := unary_laws) _ "xx"
           (created_post [] 2%nat 10 11 12
              (mkBlogpost "Title" "Body" "Ann" [] None None) created_empty))).
Defined.

(** * The diagnostics endpoint *)

Lemma code_points_str_prefix n s : (code_points (str_prefix n s) <= n)%nat.
Proof.
  revert n. induction s as [|a s IH]; intros n; cbn [str_prefix code_points]; [lia|].
  destruct (is_continuation a) eqn:E; cbn [code_points].
  - rewrite E. apply IH.
  - destruct n as [|k]; cbn [code_points]; [lia|]. rewrite E.
    specialize (IH k). lia.
Qed.

Lemma str_prefix_is_prefix n s : String.prefix (str_prefix n s) s = true.
Proof.
  revert n. induction s as [|a s IH]; intros n; cbn [str_prefix]; [reflexivity|].
  destruct (is_continuation a).
  - cbn [String.prefix]. destruct (ascii_dec a a); [apply IH | congruence].
  - destruct n as [|k]; [reflexivity|].
    cbn [String.prefix]. destruct (ascii_dec a a); [apply IH | congruence].
Qed.

Lemma str_prefix_short n s : (code_points s <= n)%nat -> str_prefix n s = s.
Proof.
  revert n. induction s as [|a s IH]; intros n; cbn [str_prefix code_points]; [reflexivity|].
  destruct (is_continuation a).
  - intros H. now rewrite IH.
  - destruct n as [|k]; [lia|]. intros H. rewrite IH; [reflexivity | lia].
Qed.

(** [s[:n]] is the longest prefix of [s] with at most [n] characters: it has
    [n] characters, or all of them when [s] has fewer, and what it leaves
    out starts at a character. *)
Lemma str_prefix_cut n s :
  exists rest,
    s = String.append (str_prefix n s) rest
    /\ code_points (str_prefix n s) = Nat.min n (code_points s)
    /\ match rest with
       | EmptyString => True
       | String a _ => is_continuation a = false
       end.
Proof.
  revert n. induction s as [|a s IH]; intros n.
  - exists EmptyString. cbn. rewrite Nat.min_0_r. repeat split.
  - cbn [str_prefix code_points]. destruct (is_continuation a) eqn:E.
    + destruct (IH n) as (rest & Hs & Hc & Hr). exists rest.
      cbn [String.append code_points]. rewrite E. repeat split; [congruence | exact Hc | exact Hr].
    + destruct n as [|k].
      * exists (String a s). cbn. repeat split. exact E.
      * destruct (IH k) as (rest & Hs & Hc & Hr). exists rest.
        cbn [String.append code_points]. rewrite E, Hc.
        repeat split; [congruence | exact Hr].
Qed.

(** X11: the fields [database_url] and [database_name] of the diagnostics
    report the environment and nothing else: each is "Set" exactly when its
    variable is set to a non-empty string, and "Not Set" exactly when it is
    unset or empty, whatever the state of the database, whose own values for
    these fields are overwritten. *)
Theorem diagnostics_report_the_environment db db' url name :
  let r := test_database db url name in
  (database_url r = Some "✅ Set"%string <-> exists a s, url = Some (String a s))
  /\ (database_url r = Some "❌ Not Set"%string <-> url = None \/ url = Some EmptyString)
  /\ (database_name r = Some "✅ Set"%string <-> exists a s, name = Some (String a s))
  /\ (database_name r = Some "❌ Not Set"%string <-> name = None \/ name = Some EmptyString)
  /\ database_url (test_database db' url name) = database_url r
  /\ database_name (test_database db' url name) = database_name r.
Proof.
  cbv zeta.
  assert (Hu : forall d, database_url (test_database d url name) =
                         Some (if getenv_true url then "✅ Set" else "❌ Not Set")%string).
  { intros [[n [e|l]]|]; reflexivity. }
  assert (Hn : forall d, database_name (test_database d url name) =
                         Some (if getenv_true name then "✅ Set" else "❌ Not Set")%string).
  { intros [[n [e|l]]|]; reflexivity. }
  rewrite !Hu, !Hn. repeat split.
  - destruct url as [[|a s]|]; cbn; intros H; try discriminate. now exists a, s.
  - intros (a & s & ->). reflexivity.
  - destruct url as [[|a s]|]; cbn; intros H; try discriminate; auto.
  - intros [->| ->]; reflexivity.
  - destruct name as [[|a s]|]; cbn; intros H; try discriminate. now exists a, s.
  - intros (a & s & ->). reflexivity.
  - destruct name as [[|a s]|]; cbn; intros H; try discriminate; auto.
  - intros [->| ->]; reflexivity.
Qed.

(** X12: the diagnostics never list more than 10 collections: the first 10
    names when the listing succeeds, and all of them when there are no more
    than 10; none when there is no database or the listing raises.  When it
    raises, the [database] field is the fixed text followed by the first 50
    characters of the message of the exception: a prefix of the message with
    exactly 50 characters, or the whole message when it has fewer, which
    ends where a character ends.  [connection_status] is "Connected" exactly
    when there is a database. *)
Theorem diagnostics_of_the_database db url name :
  let r := test_database db url name in
  (List.length (collections r) <= 10)%nat
  /\ (forall d names, db = Some d -> list_collection_names d = inr names ->
        collections r = firstn 10 names
        /\ ((List.length names <= 10)%nat -> collections r = names)
        /\ database r = "✅ Connected & Working"%string)
  /\ (forall d e, db = Some d -> list_collection_names d = inl e ->
        collections r = []
        /\ exists kept rest,
             database r = String.append "⚠️  Connected but Error: " kept
             /\ e = String.append kept rest
             /\ code_points kept = Nat.min 50 (code_points e)
             /\ match rest with
                | EmptyString => True
                | String a _ => is_continuation a = false
                end)
  /\ (db = None ->
        collections r = []
        /\ database r = "⚠️  Available but not initialized"%string)
  /\ (connection_status r = "Connected"%string <-> db <> None).
Proof.
  cbv zeta. split; [|split; [|split; [|split]]].
  - destruct db as [[n [e|l]]|]; cbn [test_database collections with_collections
      with_database with_database_url with_database_name with_connection_status
      list_collection_names List.length]; try lia.
    rewrite length_firstn. lia.
  - intros d names -> Hl. unfold test_database. rewrite Hl.
    split; [reflexivity|]. split; [|reflexivity].
    intros Hlen. cbn [collections with_collections with_database with_database_url
      with_database_name with_connection_status]. now apply firstn_all2.
  - intros d e -> Hl. unfold test_database. rewrite Hl.
    split; [reflexivity|].
    destruct (str_prefix_cut 50 e) as (rest & Hs & Hc & Hr).
    exists (str_prefix 50 e), rest. repeat split; assumption.
  - intros ->. split; reflexivity.
  - destruct db as [[n [e|l]]|]; cbn; split; intros H; try reflexivity;
      try discriminate; congruence.
Qed.

(** The slice counts characters, not bytes: of a message of 60 two-byte
    characters, 50 characters (100 bytes) are kept. *)
Example str_prefix_counts_characters :
  let e := String.concat "" (repeat "é"%string 60) in
  code_points e = 60%nat
  /\ code_points (str_prefix 50 e) = 50%nat
  /\ String.length (str_prefix 50 e) = 100%nat.
Proof. repeat split. Qed.

(** * Bounds on the counter *)

Lemma completed_app ts1 ts2 : completed (ts1 ++ ts2) = completed ts1 + completed ts2.
Proof. unfold completed. rewrite filter_app, length_app. lia. Qed.

Lemma completed_cons t ts :
  completed (t :: ts) = (if running t then 0 else 1) + completed ts.
Proof.
  unfold completed. cbn [filter]. destruct (running t); cbn [negb List.length]; lia.
Qed.

Lemma completed_le ts : 0 <= completed ts <= Z.of_nat (List.length ts).
Proof.
  unfold completed. pose proof (filter_length_le (fun t => negb (running t)) ts). lia.
Qed.

Lemma step_counter c c' :
  step c c' ->
  counter (snd c') - counter (snd c) <= completed (fst c') - completed (fst c).
Proof.
  intros [pre t post db t' db' Hrun Hstep]. cbn [fst snd].
  rewrite !completed_app, !completed_cons, Hrun.
  destruct t as [now p|now p prev|now p [d|]|r]; [| | | |discriminate];
    cbn in Hstep; injection Hstep as <- <-; cbn [running].
  - lia.
  - unfold counter. cbn [sitestat]. lia.
  - lia.
  - rewrite counter_incremented. fold (counter db). lia.
Qed.

Lemma steps_counter c c' :
  steps c c' ->
  counter (snd c') - counter (snd c) <= completed (fst c') - completed (fst c).
Proof.
  induction 1 as [c|c1 c2 c3 H12 _ IH]; [lia|].
  pose proof (step_counter c1 c2 H12). lia.
Qed.

(** X13: however heartbeats are interleaved, the counter goes up by at most
    one for each handler that has finished, so by no more than the number
    of requests in progress or finished. *)
Theorem interleaving_overcount_is_bounded ts0 db0 ts db :
  steps (ts0, db0) (ts, db) ->
  counter db - counter db0 <= completed ts - completed ts0
  /\ counter db <= counter db0 + Z.of_nat (List.length ts).
Proof.
  intros Hsteps. pose proof (steps_counter _ _ Hsteps) as H. cbn [fst snd] in H.
  split; [exact H|].
  pose proof (completed_le ts). pose proof (completed_le ts0). lia.
Qed.

Lemma interleaving_overcount_is_bounded_witness :
  counter sample_race_end - counter sample_store <= 2
  /\ counter sample_race_end <= counter sample_store + Z.of_nat 2.
Proof.
  exact (interleaving_overcount_is_bounded sample_race sample_store _ sample_race_end
           sample_race_runs).
Defined.

(** X14: [get_stats] never reports more active visitors than total views:
    on every database reached from the empty store by requests served one
    after the other, and then by heartbeats interleaved in any way and all
    finished, it answers (for a window whose cutoff is representable) with
    0 <= active <= total. *)
Theorem active_never_exceeds_total rs ts0 ts db now w :
  valid now -> cutoff_ok now w ->
  Forall (fun t => exists t0 payload, t = AtFind t0 payload) ts0 ->
  steps (ts0, serve_all rs empty_db) (ts, db) ->
  Forall (fun t => running t = false) ts ->
  exists a t,
    outcome (get_stats now (Some w)) db = inr (mkStats a t) /\ 0 <= a <= t.
Proof.
  intros Hn Hc Hfind Hsteps Hdone.
  destruct (interleaving_never_undercounts_aux ts0 (serve_all rs empty_db) ts db Hfind
              (serve_all_inv rs empty_db empty_inv) Hsteps) as (_ & _ & Hcover).
  rewrite (pending_finished ts Hdone) in Hcover.
  unfold outcome. rewrite (get_stats_run now w db Hn Hc). cbn [fst].
  do 2 eexists. split; [reflexivity|].
  pose proof (count_documents_nonneg (last_seen_gte (now - w * US_PER_SECOND)) (session db)).
  pose proof (count_documents_length (last_seen_gte (now - w * US_PER_SECOND)) (session db)).
  lia.
Qed.

Lemma active_never_exceeds_total_witness :
  exists a t,
    outcome (get_stats 63900000000000000 (Some 120)) sample_race_end
    = inr (mkStats a t) /\ 0 <= a <= t.
Proof.
  assert (Hn : valid 63900000000000000) by in_range.
  assert (Hc : cutoff_ok 63900000000000000 120) by in_range.
  exact (active_never_exceeds_total
           [Heartbeat 63899999000000000 (JStr "xyz")] sample_race _ sample_race_end
           63900000000000000 120 Hn Hc sample_race_starts sample_race_runs
           sample_race_ends).
Defined.

(** * Listing the blog posts *)

#[local] Instance insertion_cursor_laws : BlogCursorLaws insertion_cursor.
Proof.
  split. intros n c d H. cbn [find_sort_limit insertion_cursor] in H.
  rewrite <- (firstn_skipn (Z.to_nat n) c). apply in_or_app. now left.
Qed.

Section BlogListingFacts.
Context {codec : ObjectIdCodec} {laws : ObjectIdLaws codec}.
Context {cursor : BlogCursor codec} {cursor_laws : BlogCursorLaws cursor}.

Lemma serialize_all_ok docs :
  (forall d, In d docs -> exists out, serialize_blog d = inr out) ->
  exists outs,
    serialize_all docs = inr outs
    /\ List.length outs = List.length docs
    /\ forall out, In out outs -> exists d, In d docs /\ serialize_blog d = inr out.
Proof.
  induction docs as [|d docs IH]; intros H.
  - exists []. repeat split. intros out [].
  - destruct (H d (or_introl eq_refl)) as (out & Hout).
    destruct (IH (fun x Hx => H x (or_intror Hx))) as (outs & Hs & Hlen & Hin).
    exists (out :: outs). cbn [serialize_all]. rewrite Hout, Hs.
    split; [reflexivity|]. split; [cbn [List.length]; now rewrite Hlen|].
    intros o [<-|Ho].
    + exists d. split; [now left | exact Hout].
    + destruct (Hin o Ho) as (x & Hx & Hsx). exists x. split; [now right | exact Hsx].
Qed.

Lemma serialize_all_fails docs d e :
  In d docs -> serialize_blog d = inl e -> exists e', serialize_all docs = inl e'.
Proof.
  induction docs as [|x docs IH]; intros Hin He; [destruct Hin|].
  cbn [serialize_all]. destruct Hin as [->|Hin].
  - rewrite He. now exists e.
  - destruct (serialize_blog x) as [e0|out]; [now exists e0|].
    destruct (IH Hin He) as (e' & ->). now exists e'.
Qed.

(** X15: [list_blogs] leaves the collection as it is, and an omitted limit
    is 20.  On a collection that [create_blog] alone has built it raises
    nothing, and every post it returns is the serialisation of a stored
    document; but one document of the cursor without a required field makes
    the whole listing fail. *)
Theorem list_blogs_serves_created_posts limit c :
  created c ->
  snd (list_blogs limit c) = c
  /\ list_blogs None c = list_blogs (Some 20) c
  /\ (exists outs,
        fst (list_blogs limit c) = inr outs
        /\ forall out, In out outs ->
             exists d, In d c /\ serialize_blog d = inr out /\ out_id out = oid_str (_id d))
  /\ (forall c' d e,
        In d (find_sort_limit (match limit with Some n => n | None => 20 end) c') ->
        serialize_blog d = inl e ->
        exists e', fst (list_blogs limit c') = inl e').
Proof.
  intros Hc. split; [reflexivity|]. split; [reflexivity|]. split.
  - destruct (created_collection_is_served_aux c Hc) as [_ Hser].
    unfold list_blogs. cbn [fst].
    destruct (serialize_all_ok
                (find_sort_limit (match limit with Some n => n | None => 20 end) c))
      as (outs & Hs & _ & Hin).
    { intros d Hd. apply Hser. exact (cursor_in _ _ _ Hd). }
    exists outs. split; [exact Hs|]. intros out Hout.
    destruct (Hin out Hout) as (d & Hd & Hsd). exists d.
    split; [exact (cursor_in _ _ _ Hd)|]. split; [exact Hsd|].
    unfold serialize_blog in Hsd.
    destruct (doc_title d), (doc_content d), (doc_author d); try discriminate.
    now injection Hsd as <-.
  - intros c' d e Hd He. unfold list_blogs. cbn [fst].
    exact (serialize_all_fails _ d e Hd He).
Qed.

End BlogListingFacts.

Lemma list_blogs_serves_created_posts_witness :
  exists outs,
    fst (list_blogs (Some 5)
           (snd (create_blog 2%nat 10 11 12
                   (mkBlogpost "Title" "Body" "Ann" [] None None) [])))
    = inr outs
    /\ forall out, In out outs ->
         exists d,
           In d (snd (create_blog 2%nat 10 11 12
                        (mkBlogpost "Title" "Body" "Ann" [] None None) []))
           /\ serialize_blog d = inr out /\ out_id out = oid_str (_id d).
Proof.
  exact (proj1 (proj2 (proj2 (list_blogs_serves_created_posts
           (laws := unary_laws) (cursor_laws := insertion_cursor_laws) (Some 5) _
           (created_post [] 2%nat 10 11 12
              (mkBlogpost "Title" "Body" "Ann" [] None None) created_empty))))).
Defined.
